(** * The proposals endpoint of the node's tequilapi

    A shallow embedding of [tequilapi/endpoints/proposals.go]: the query
    translator ([parsePriceBound] and the head of [List]), the projection of
    a proposal to its wire form ([proposalToRes]), the quality correlator
    ([addProposalMetrics]) and the handler [List] that wires them to the two
    collaborators, the proposal repository and the quality finder.

    Go strings are byte strings, modelled by [string]; Go's [int], [uint64]
    and [time.Duration] are modelled by [Z] with their ranges written out
    where the code depends on them; [float64] is the kernel's binary64. *)

From Stdlib Require Import ZArith Floats Ascii.
From stdpp Require Import base option list strings gmap.

Local Open Scope Z_scope.

(** ** Go's built-in and standard-library pieces the handler uses *)

Module strconv.

(** The two sentinel errors of package strconv. *)
Inductive sentinel := ErrSyntax | ErrRange.

(** [*strconv.NumError]: the function, the input text and the cause. *)
Record NumError := { Func : string; Num : string; Err : sentinel }.

Definition fnParseUint : string := "ParseUint".
Definition syntaxError (fn str : string) : NumError :=
  {| Func := fn; Num := str; Err := ErrSyntax |}.
Definition rangeError (fn str : string) : NumError :=
  {| Func := fn; Num := str; Err := ErrRange |}.

Definition maxUint64 : Z := 2 ^ 64 - 1.

Definition byte_of (c : ascii) : Z := Z.of_N (N_of_ascii c).

(** [lower(c)]: [c | ('x' - 'X')]. *)
Definition lower (c : Z) : Z := Z.lor c 32.

(** The [switch] of the digit loop: the value of the byte as a digit, or
    no value ([default]: a syntax error). The underscore case needs
    [base == 0] and never fires for an explicit base. *)
Definition digit_value (c : Z) : option Z :=
  if (48 <=? c) && (c <=? 57) then Some (c - 48)
  else if (97 <=? lower c) && (lower c <=? 122) then Some (lower c - 97 + 10)
  else None.

(** The loop of [ParseUint] over the bytes of [s], for a [base] between 2
    and 36 and [bitSize = 64]; [n] is the accumulator, a uint64. *)
Fixpoint parse_loop (base cutoff : Z) (s0 : string) (s : string) (n : Z)
  : Z * option NumError :=
  match s with
  | EmptyString => (n, None)
  | String c s' =>
      match digit_value (byte_of c) with
      | None => (0, Some (syntaxError fnParseUint s0))
      | Some d =>
          if base <=? d then (0, Some (syntaxError fnParseUint s0))
          else if cutoff <=? n then (maxUint64, Some (rangeError fnParseUint s0))
          else
            let n' := (n * base) mod 2 ^ 64 in
            let n1 := (n' + d) mod 2 ^ 64 in
            if (n1 <? n') || (maxUint64 <? n1)
            then (maxUint64, Some (rangeError fnParseUint s0))
            else parse_loop base cutoff s0 s' n1
      end
  end.

(** [strconv.ParseUint(s, 10, 64)]. *)
Definition ParseUint10 (s : string) : Z * option NumError :=
  match s with
  | EmptyString => (0, Some (syntaxError fnParseUint s))
  | _ => parse_loop 10 (maxUint64 / 10 + 1) s s 0
  end.

End strconv.

(** Go's [error] values that reach the handler: a [*strconv.NumError] from
    the bound parser, or whatever the repository returns, kept opaque. *)
Inductive error :=
  | ofNumError (e : strconv.NumError)
  | opaqueError (msg : string).

Module time.

(** [time.Duration]: an int64 count of nanoseconds. *)
Definition Duration := Z.
Definition Second : Duration := 1000000000.
Definition Minute : Duration := 60 * Second.

(** [float64(x)] for an int64 [x]. *)
Definition float64_of_int (x : Z) : float :=
  if x <? 0 then PrimFloat.opp (PrimFloat.of_uint63 (Uint63.of_Z (- x)))
  else PrimFloat.of_uint63 (Uint63.of_Z x).

(** [Duration.Seconds]:
    [sec := d / Second; nsec := d % Second;
     return float64(sec) + float64(nsec)/1e9]. *)
Definition Seconds (d : Duration) : float :=
  let sec := Z.quot d Second in
  let nsec := Z.rem d Second in
  PrimFloat.add (float64_of_int sec)
                (PrimFloat.div (float64_of_int nsec) (float64_of_int 1000000000)).

End time.

Module conv.

(** The integer part of a finite binary64, rounded toward zero. *)
Definition truncate (f : float) : option Z :=
  match Prim2SF f with
  | S754_zero _ => Some 0
  | S754_finite s m e =>
      let a := if 0 <=? e then Z.pos m * 2 ^ e else Z.pos m / 2 ^ (- e) in
      Some (if s then - a else a)
  | _ => None
  end.

(** The conversion [uint64(f)] of a [float64]: the fraction is discarded;
    when the result does not fit a uint64 (or [f] is not finite) the Go
    specification leaves the value to the implementation, here
    [otherwise f]. *)
Definition uint64_of_float64 (otherwise : float -> Z) (f : float) : Z :=
  match truncate f with
  | Some v => if (0 <=? v) && (v <? 2 ^ 64) then v else otherwise f
  | None => otherwise f
  end.

End conv.

Module url.

(** [url.Values]: [map[string][]string], the parsed query string. *)
Abbreviation Values := (gmap string (list string)).

(** [Values.Get]: the first value of the key, or the empty string. *)
Definition Get (v : Values) (key : string) : string :=
  match v !! key with
  | Some (x :: _) => x
  | _ => ""
  end.

End url.

(** A Go slice, told apart from [nil] because the JSON encoder does. *)
Inductive slice (A : Type) :=
  | nil_slice
  | mk_slice (elems : list A).
Arguments nil_slice {A}.
Arguments mk_slice {A} elems.

Definition elems {A} (s : slice A) : list A :=
  match s with nil_slice => [] | mk_slice l => l end.

(** [append(s, x)]: the result is never [nil]. *)
Definition append {A} (s : slice A) (x : A) : slice A := mk_slice (elems s ++ [x]).

(** ** The packages of the repository the handler imports *)

Module money.
(** Modelled from the spec: [money.Money] is declared outside the files at
    hand; the spec gives a price as an amount and a currency. *)
Record Money := { Amount : Z; Currency : string }.
End money.

Module market.

(** Modelled from the spec: [market.Location], declared outside the files
    at hand; the fields are those [proposalToRes] reads. *)
Record Location := {
  Continent : string; Country : string; City : string;
  ASN : Z; ISP : string; NodeType : string }.

(** Modelled from the spec: an access policy is an id and a source. *)
Record AccessPolicy := { ID : string; Source : string }.

(** Modelled from the spec: [market.PaymentRate], a duration-based and a
    byte-based rate. *)
Record PaymentRate := { PerTime : time.Duration; PerByte : Z }.

(** The interfaces [ServiceDefinition] and [PaymentMethod], each given by
    the results of the methods the endpoint calls; a proposal always has
    both, as the spec's data model has it. *)
Record ServiceDefinition := { GetLocation : Location }.
Record PaymentMethod := {
  GetType : string; GetPrice : money.Money; GetRate : PaymentRate }.

(** Modelled from the spec: [market.ServiceProposal]; [AccessPolicies] is
    a pointer to a slice, absent when [nil]. *)
Record ServiceProposal := {
  SP_ID : Z;
  ProviderID : string;
  ServiceType : string;
  SP_ServiceDefinition : ServiceDefinition;
  SP_PaymentMethod : PaymentMethod;
  AccessPolicies : option (list AccessPolicy) }.

End market.

Module quality.

(** Modelled from the spec: the identifier, counters and record of a
    quality metric, declared in package quality. *)
Record ProposalID := { ProviderID : string; ServiceType : string }.
Record ConnectCount := { Success : Z; Fail : Z; Timeout : Z }.
Record ConnectMetric := { ProposalID_of : ProposalID; ConnectCount_of : ConnectCount }.

End quality.

Module proposal.

(** Modelled from the spec: [proposal.Filter], with the fields the handler
    sets; a bound is a [*uint64], absent when [nil]. *)
Record Filter := {
  ProviderID : string;
  ServiceType : string;
  AccessPolicyID : string;
  AccessPolicySource : string;
  LowerGBPriceBound : option Z;
  UpperGBPriceBound : option Z;
  LowerTimePriceBound : option Z;
  UpperTimePriceBound : option Z;
  ExcludeUnsupported : bool }.

(** The interface [proposal.Repository] over a world [W] the collaborator
    may read and change: [Proposals] returns a list and an error. *)
Class Repository (W : Type) := {
  Proposals : Filter -> W -> (list market.ServiceProposal * option error) * W }.

End proposal.

(** ** Package endpoints: the wire types *)

Module endpoints.

Record locationRes := {
  Continent : string; Country : string; City : string;
  ASN : Z; ISP : string; NodeType : string }.

Record serviceDefinitionRes := { LocationOriginate : locationRes }.

Record metricsRes := { ConnectCount : quality.ConnectCount }.

Record paymentRateRes := { PerSeconds : Z; PerBytes : Z }.

Record paymentMethodRes := {
  Type_ : string; Price : money.Money; Rate : paymentRateRes }.

(** [Metrics] and [AccessPolicies] are pointers with [omitempty]: absent
    from the encoded object when [nil]. *)
Record proposalDTO := {
  ID : Z;
  ProviderID : string;
  ServiceType : string;
  ServiceDefinition : serviceDefinitionRes;
  Metrics : option metricsRes;
  AccessPolicies : option (list market.AccessPolicy);
  PaymentMethod : paymentMethodRes }.

(** The assignment [p.Metrics = m]. *)
Definition set_Metrics (m : option metricsRes) (p : proposalDTO) : proposalDTO :=
  {| ID := ID p; ProviderID := ProviderID p; ServiceType := ServiceType p;
     ServiceDefinition := ServiceDefinition p; Metrics := m;
     AccessPolicies := AccessPolicies p; PaymentMethod := PaymentMethod p |}.

(** A [*proposalDTO]: an address in the heap of DTOs; an address the heap
    does not hold stands for [nil]. *)
Abbreviation ptr := nat.

Record proposalsRes := { Proposals : slice ptr }.

(** The interface [QualityFinder] over a world [W]. *)
Class QualityFinder (W : Type) := {
  ProposalsMetrics : W -> list quality.ConnectMetric * W }.

Record proposalsEndpoint (W : Type) := {
  proposalRepository : proposal.Repository W;
  qualityProvider : QualityFinder W }.
Arguments proposalRepository {W}.
Arguments qualityProvider {W}.

(** What the handler writes: a status and either an error message or the
    encoded list, [null] for a [nil] slice and an array otherwise. *)
Inductive json_list (A : Type) :=
  | json_null
  | json_array (items : list A).
Arguments json_null {A}.
Arguments json_array {A} items.

Inductive body :=
  | errorBody (err : error)
  | proposalsBody (proposals : json_list proposalDTO).

Record response := { status : Z; payload : body }.

Definition StatusOK : Z := 200.
Definition StatusBadRequest : Z := 400.
Definition StatusInternalServerError : Z := 500.

(** The calls the handler makes on its collaborators, in order. *)
Inductive call :=
  | callProposals (f : proposal.Filter)
  | callProposalsMetrics.

Section Handler.

Context {W : Type}.

(** What [uint64(f)] yields where Go leaves it to the implementation. *)
Variable uint64_otherwise : float -> Z.

(** The state a request runs in: the collaborators' world, the log of
    calls made on them, and the heap of DTOs allocated so far. *)
Record state := { world : W; calls : list call; heap : list proposalDTO }.

(** Computations of the handler; [None] is a run-time panic. *)
Definition M (A : Type) : Type := state -> option (A * state).

Definition ret {A} (a : A) : M A := fun s => Some (a, s).
Definition bind {A B} (m : M A) (k : A -> M B) : M B :=
  fun s => match m s with Some (a, s') => k a s' | None => None end.

Notation "x <- c1 ;; c2" := (bind c1 (fun x => c2))
  (at level 100, c1 at next level, right associativity).
Notation "c1 ;;; c2" := (bind c1 (fun _ => c2))
  (at level 100, right associativity).

(** [&proposalDTO{...}]: a fresh address. *)
Definition new (d : proposalDTO) : M ptr :=
  fun s => Some (length (heap s),
                 {| world := world s; calls := calls s; heap := heap s ++ [d] |}).

(** Reading through a pointer; a [nil] pointer panics. *)
Definition load (p : ptr) : M proposalDTO :=
  fun s => match heap s !! p with Some d => Some (d, s) | None => None end.

(** Writing through a pointer; a [nil] pointer panics. *)
Definition store (p : ptr) (d : proposalDTO) : M unit :=
  fun s => match heap s !! p with
           | Some _ => Some (tt, {| world := world s; calls := calls s;
                                    heap := <[p := d]> (heap s) |})
           | None => None
           end.

(** A call on the repository, logged. *)
Definition call_Proposals (pe : proposalsEndpoint W) (f : proposal.Filter)
  : M (list market.ServiceProposal * option error) :=
  fun s =>
    let '(r, w) := @proposal.Proposals W (proposalRepository pe) f (world s) in
    Some (r, {| world := w; calls := calls s ++ [callProposals f]; heap := heap s |}).

(** A call on the quality finder, logged. *)
Definition call_ProposalsMetrics (pe : proposalsEndpoint W) : M (list quality.ConnectMetric) :=
  fun s =>
    let '(r, w) := @ProposalsMetrics W (qualityProvider pe) (world s) in
    Some (r, {| world := w; calls := calls s ++ [callProposalsMetrics]; heap := heap s |}).

(** The struct literal of [proposalToRes]. *)
Definition proposalDTO_of (p : market.ServiceProposal) : proposalDTO :=
  let loc := market.GetLocation (market.SP_ServiceDefinition p) in
  let pm := market.SP_PaymentMethod p in
  {| ID := market.SP_ID p;
     ProviderID := market.ProviderID p;
     ServiceType := market.ServiceType p;
     ServiceDefinition :=
       {| LocationOriginate :=
            {| Continent := market.Continent loc;
               Country := market.Country loc;
               City := market.City loc;
               ASN := market.ASN loc;
               ISP := market.ISP loc;
               NodeType := market.NodeType loc |} |};
     Metrics := None;
     AccessPolicies := market.AccessPolicies p;
     PaymentMethod :=
       {| Type_ := market.GetType pm;
          Price := market.GetPrice pm;
          Rate :=
            {| PerSeconds :=
                 conv.uint64_of_float64 uint64_otherwise
                   (time.Seconds (market.PerTime (market.GetRate pm)));
               PerBytes := market.PerByte (market.GetRate pm) |} |} |}.

Definition proposalToRes (p : market.ServiceProposal) : M ptr :=
  new (proposalDTO_of p).

(** [parsePriceBound]: [(nil, nil)] for an empty value, else the address
    of the parsed number together with the parser's error. *)
Definition parsePriceBound (req : url.Values) (key : string) : option Z * option error :=
  let bound := url.Get req key in
  if decide (bound = "") then (None, None)
  else
    let '(upperPriceBound, err) := strconv.ParseUint10 (url.Get req key) in
    (Some upperPriceBound, ofNumError <$> err).

(** The index of [addProposalMetrics]: a Go map filled in list order. *)
Definition metricsMap_of (metrics : list quality.ConnectMetric)
  : gmap string quality.ConnectMetric :=
  foldl (fun mm m =>
           <[ quality.ProviderID (quality.ProposalID_of m)
              +:+ quality.ServiceType (quality.ProposalID_of m) := m ]> mm)
        ∅ metrics.

(** The second loop of [addProposalMetrics], over the pointers. *)
Fixpoint attach_metrics (metricsMap : gmap string quality.ConnectMetric)
         (proposals : list ptr) : M unit :=
  match proposals with
  | [] => ret tt
  | p :: rest =>
      d <- load p ;;
      (match metricsMap !! (ProviderID d +:+ ServiceType d) with
       | Some mc =>
           store p (set_Metrics (Some {| ConnectCount := quality.ConnectCount_of mc |}) d)
       | None => ret tt
       end) ;;;
      attach_metrics metricsMap rest
  end.

Definition addProposalMetrics (proposals : slice ptr)
           (metrics : list quality.ConnectMetric) : M unit :=
  attach_metrics (metricsMap_of metrics) (elems proposals).

(** [utils.SendError] and [utils.WriteAsJSON].
    Modelled from the spec: package utils is outside the files at hand;
    the first answers with the given status and the error, the second
    with 200 and the encoded value, read through the pointers. *)
Definition SendError (err : error) (httpCode : Z) : M response :=
  ret {| status := httpCode; payload := errorBody err |}.

Fixpoint load_all (ps : list ptr) : M (list proposalDTO) :=
  match ps with
  | [] => ret []
  | p :: rest => d <- load p ;; ds <- load_all rest ;; ret (d :: ds)
  end.

Definition WriteAsJSON (v : proposalsRes) : M response :=
  match Proposals v with
  | nil_slice => ret {| status := StatusOK; payload := proposalsBody json_null |}
  | mk_slice ps =>
      ds <- load_all ps ;;
      ret {| status := StatusOK; payload := proposalsBody (json_array ds) |}
  end.

(** The loop [for _, p := range proposals { ... append ... }]. *)
Fixpoint project_all (ps : list market.ServiceProposal) (acc : slice ptr) : M (slice ptr) :=
  match ps with
  | [] => ret acc
  | p :: rest => a <- proposalToRes p ;; project_all rest (append acc a)
  end.

(** The handler [List]. *)
Definition List (pe : proposalsEndpoint W) (req : url.Values) : M response :=
  let fetchConnectCounts := url.Get req "fetch_connect_counts" in
  let '(upperTimePriceBound, err) := parsePriceBound req "upper_time_price_bound" in
  match err with Some err => SendError err StatusBadRequest | None =>
  let '(lowerTimePriceBound, err) := parsePriceBound req "lower_time_price_bound" in
  match err with Some err => SendError err StatusBadRequest | None =>
  let '(upperGBPriceBound, err) := parsePriceBound req "upper_gb_price_bound" in
  match err with Some err => SendError err StatusBadRequest | None =>
  let '(lowerGBPriceBound, err) := parsePriceBound req "lower_gb_price_bound" in
  match err with Some err => SendError err StatusBadRequest | None =>
  r <- call_Proposals pe
         {| proposal.ProviderID := url.Get req "provider_id";
            proposal.ServiceType := url.Get req "service_type";
            proposal.AccessPolicyID := url.Get req "access_policy_id";
            proposal.AccessPolicySource := url.Get req "access_policy_source";
            proposal.LowerGBPriceBound := lowerGBPriceBound;
            proposal.UpperGBPriceBound := upperGBPriceBound;
            proposal.LowerTimePriceBound := lowerTimePriceBound;
            proposal.UpperTimePriceBound := upperTimePriceBound;
            proposal.ExcludeUnsupported := true |} ;;
  let '(proposals, err) := r in
  match err with Some err => SendError err StatusInternalServerError | None =>
  res <- project_all proposals (mk_slice []) ;;
  (if decide (fetchConnectCounts = "true") then
     metrics <- call_ProposalsMetrics pe ;;
     addProposalMetrics res metrics
   else ret tt) ;;;
  WriteAsJSON {| Proposals := res |}
  end end end end end.

End Handler.

End endpoints.

(** ** Notions the statements use *)

Import endpoints.

(** The join key as the spec names it: the pair of provider and service. *)
Definition metric_pair (m : quality.ConnectMetric) : string * string :=
  (quality.ProviderID (quality.ProposalID_of m), quality.ServiceType (quality.ProposalID_of m)).
Definition dto_pair (d : proposalDTO) : string * string := (ProviderID d, ServiceType d).

(** The key the code builds from a pair: plain concatenation. *)
Definition index_key (pr : string * string) : string := pr.1 +:+ pr.2.

(** The last element of a list that satisfies a decidable predicate. *)
Definition find_last {A} (P : A -> Prop) `{!forall x, Decision (P x)} (l : list A) : option A :=
  foldl (fun acc x => if decide (P x) then Some x else acc) None l.

(** What the second loop does to one DTO, given the index. *)
Definition enrich (metricsMap : gmap string quality.ConnectMetric) (d : proposalDTO) : proposalDTO :=
  match metricsMap !! index_key (dto_pair d) with
  | Some mc => set_Metrics (Some {| ConnectCount := quality.ConnectCount_of mc |}) d
  | None => d
  end.

(** The four bound parameters, in the order [List] parses them. *)
Definition bound_keys : list string :=
  ["upper_time_price_bound"; "lower_time_price_bound";
   "upper_gb_price_bound"; "lower_gb_price_bound"].

(** The first bound parameter, in that order, whose parse gives an error. *)
Definition failing_bound (req : url.Values) : option string :=
  list_find (fun key => is_Some (parsePriceBound req key).2) bound_keys ≫= (fun ik => Some ik.2).

(** The filter [List] hands to the repository once all bounds parse. *)
Definition filter_of (req : url.Values) : proposal.Filter :=
  {| proposal.ProviderID := url.Get req "provider_id";
     proposal.ServiceType := url.Get req "service_type";
     proposal.AccessPolicyID := url.Get req "access_policy_id";
     proposal.AccessPolicySource := url.Get req "access_policy_source";
     proposal.LowerGBPriceBound := (parsePriceBound req "lower_gb_price_bound").1;
     proposal.UpperGBPriceBound := (parsePriceBound req "upper_gb_price_bound").1;
     proposal.LowerTimePriceBound := (parsePriceBound req "lower_time_price_bound").1;
     proposal.UpperTimePriceBound := (parsePriceBound req "upper_time_price_bound").1;
     proposal.ExcludeUnsupported := true |}.

(** The filters of the repository calls in a log, and the number of calls
    on the quality finder. *)
Definition repository_calls (cs : list call) : list proposal.Filter :=
  omap (fun c => match c with callProposals f => Some f | _ => None end) cs.
Definition metrics_calls (cs : list call) : nat :=
  length (omap (fun c => match c with callProposalsMetrics => Some tt | _ => None end) cs).

(** A state with its heap replaced. *)
Definition with_heap {W} (s : @state W) (h : list proposalDTO) : @state W :=
  {| world := world s; calls := calls s; heap := h |}.

(** The heap after the correlator has visited the pointers [ps] in turn. *)
Definition visit (metricsMap : gmap string quality.ConnectMetric)
           (h : list proposalDTO) (ps : list ptr) : list proposalDTO :=
  foldl (fun h p => alter (enrich metricsMap) p h) h ps.

(** A decimal numeral as the spec words it: one or more digits ['0'..'9'],
    read in base 10. *)
Definition is_digit (c : ascii) : bool :=
  (48 <=? strconv.byte_of c) && (strconv.byte_of c <=? 57).

Fixpoint decimal_value (s : string) (acc : Z) : option Z :=
  match s with
  | EmptyString => Some acc
  | String c s' =>
      if is_digit c then decimal_value s' (acc * 10 + (strconv.byte_of c - 48)) else None
  end.

Definition parses_as_uint64 (s : string) : Prop :=
  s <> "" /\ exists v, decimal_value s 0 = Some v /\ v < 2 ^ 64.

(** The value of the leading decimal digits of a text, continued from an
    accumulator, and whether the text has digits only. *)
Fixpoint digits_value (s : string) (acc : Z) : Z :=
  match s with
  | EmptyString => acc
  | String c s' =>
      if is_digit c then digits_value s' (acc * 10 + (strconv.byte_of c - 48)) else acc
  end.

Fixpoint all_digits (s : string) : bool :=
  match s with
  | EmptyString => true
  | String c s' => is_digit c && all_digits s'
  end.

(** What a bound parameter amounts to, said without the parser: nothing
    and no error for the empty text; the largest uint64 and a range error
    once the leading digits reach [2^64]; the number for a text of digits;
    zero and a syntax error in every other case. *)
Definition bound_of_text (x : string) : option Z * option error :=
  if decide (x = "") then (None, None)
  else if 2 ^ 64 <=? digits_value x 0
       then (Some strconv.maxUint64, Some (ofNumError (strconv.rangeError "ParseUint" x)))
       else if all_digits x then (Some (digits_value x 0), None)
            else (Some 0, Some (ofNumError (strconv.syntaxError "ParseUint" x))).

(** Two DTOs that agree, field by field, in every field but [Metrics]. *)
Definition other_fields_equal (d d' : proposalDTO) : Prop :=
  ID d' = ID d
  /\ ProviderID d' = ProviderID d
  /\ ServiceType d' = ServiceType d
  /\ ServiceDefinition d' = ServiceDefinition d
  /\ AccessPolicies d' = AccessPolicies d
  /\ PaymentMethod d' = PaymentMethod d.

(** Two answers that differ at most in the metrics of their DTOs. *)
Definition same_but_metrics (r r' : response) : Prop :=
  status r = status r'
  /\ match payload r, payload r' with
     | errorBody e, errorBody e' => e = e'
     | proposalsBody json_null, proposalsBody json_null => True
     | proposalsBody (json_array ds), proposalsBody (json_array ds') =>
         Forall2 other_fields_equal ds ds'
     | _, _ => False
     end.

(** What the spec asks of an error answer: that the parameter at fault can
    be read off the response. *)
Definition names_failing_parameter {W} (otherwise : float -> Z)
           (pe : proposalsEndpoint W) : Prop :=
  exists which : response -> string,
    forall (req : url.Values) (s s' : @state W) (key : string) (resp : response),
      failing_bound req = Some key ->
      List otherwise pe req s = Some (resp, s') ->
      which resp = key.

(** ** Fixed collaborators and sample data *)

Module sample.

Definition location : market.Location :=
  {| market.Continent := "EU"; market.Country := "NL"; market.City := "Amsterdam";
     market.ASN := 1; market.ISP := "Telia"; market.NodeType := "residential" |}.

Definition offer (id : Z) (provider service : string) (perTime : time.Duration)
  : market.ServiceProposal :=
  {| market.SP_ID := id;
     market.ProviderID := provider;
     market.ServiceType := service;
     market.SP_ServiceDefinition := {| market.GetLocation := location |};
     market.SP_PaymentMethod :=
       {| market.GetType := "PER_TIME";
          market.GetPrice := {| money.Amount := 50000; money.Currency := "MYST" |};
          market.GetRate := {| market.PerTime := perTime; market.PerByte := 7 |} |};
     market.AccessPolicies := None |}.

Definition metric (provider service : string) (success : Z) : quality.ConnectMetric :=
  {| quality.ProposalID_of :=
       {| quality.ProviderID := provider; quality.ServiceType := service |};
     quality.ConnectCount_of :=
       {| quality.Success := success; quality.Fail := 0; quality.Timeout := 0 |} |}.

(** A repository and a quality finder that answer the same on every call. *)
Definition endpoint (ps : list market.ServiceProposal) (err : option error)
           (ms : list quality.ConnectMetric) : proposalsEndpoint unit :=
  {| proposalRepository := {| proposal.Proposals := fun _ w => ((ps, err), w) |};
     qualityProvider := {| ProposalsMetrics := fun w => (ms, w) |} |}.

Definition start : @state unit := {| world := tt; calls := []; heap := [] |}.

Definition otherwise : float -> Z := fun _ => 0.

Definition with_counts : url.Values := {[ "fetch_connect_counts" := ["true"] ]}.
Definition bad_upper_time : url.Values := {[ "upper_time_price_bound" := ["abc"] ]}.
Definition bad_lower_gb : url.Values := {[ "lower_gb_price_bound" := ["abc"] ]}.

End sample.

(** A heap of two DTOs and the records to correlate them with. *)
Module fixture.

Definition first : proposalDTO :=
  proposalDTO_of sample.otherwise (sample.offer 1 "0xP1" "openvpn" time.Minute).
Definition second : proposalDTO :=
  proposalDTO_of sample.otherwise (sample.offer 2 "0xP2" "noop" time.Minute).

Definition loaded : @state unit := {| world := tt; calls := []; heap := [first; second] |}.

Definition records : list quality.ConnectMetric := [sample.metric "0xP1" "openvpn" 5].

(** [loaded] after the correlator went over the first DTO. *)
Definition enriched : @state unit :=
  {| world := tt; calls := [];
     heap := [set_Metrics
                (Some {| ConnectCount := quality.ConnectCount_of (sample.metric "0xP1" "openvpn" 5) |})
                first;
              second] |}.

Definition bounded : url.Values :=
  {[ "provider_id" := ["0xP1"]; "upper_time_price_bound" := ["0042"];
     "lower_gb_price_bound" := ["7"] ]}.

End fixture.

(** ** The index of the quality correlator *)

Section Index.

Implicit Types (ms : list quality.ConnectMetric) (m : quality.ConnectMetric).
Implicit Types (k : string).

Lemma find_last_snoc {A} (P : A -> Prop) `{!forall x, Decision (P x)} (l : list A) (x : A) :
  find_last P (l ++ [x]) = if decide (P x) then Some x else find_last P l.
Proof. unfold find_last. by rewrite foldl_app. Qed.

Lemma find_last_Some {A} (P : A -> Prop) `{!forall x, Decision (P x)} (l : list A) (x : A) :
  find_last P l = Some x <->
  exists l1 l2, l = l1 ++ x :: l2 /\ P x /\ Forall (fun y => ~ P y) l2.
Proof.
  induction l as [|y l IH] using rev_ind.
  - split; [done|]. intros (l1 & l2 & E & _). by destruct l1.
  - rewrite find_last_snoc. case_decide as Hy.
    + split.
      * intros [= ->]. by exists l, [].
      * intros (l1 & l2 & E & HP & Hl2).
        destruct l2 as [|z l2 _] using rev_ind.
        -- apply app_inj_tail in E as [_ ->]. done.
        -- rewrite app_comm_cons, app_assoc in E.
           apply app_inj_tail in E as [_ ->].
           apply Forall_app in Hl2 as [_ Hz]. by inversion Hz.
    + rewrite IH. split.
      * intros (l1 & l2 & -> & HP & Hl2). exists l1, (l2 ++ [y]).
        split; [by rewrite <- app_assoc|]. split; [done|].
        apply Forall_app. split; [done|by constructor].
      * intros (l1 & l2 & E & HP & Hl2).
        destruct l2 as [|z l2 _] using rev_ind.
        -- apply app_inj_tail in E as [_ ->]. done.
        -- rewrite app_comm_cons, app_assoc in E.
           apply app_inj_tail in E as [-> ->].
           apply Forall_app in Hl2 as [Hl2 _]. by exists l1, l2.
Qed.

Lemma find_last_None {A} (P : A -> Prop) `{!forall x, Decision (P x)} (l : list A) :
  find_last P l = None <-> Forall (fun y => ~ P y) l.
Proof.
  induction l as [|y l IH] using rev_ind.
  - split; [constructor|done].
  - rewrite find_last_snoc, Forall_app, Forall_singleton.
    case_decide; [|rewrite IH]; intuition congruence.
Qed.

Lemma find_last_elem_of {A} (P : A -> Prop) `{!forall x, Decision (P x)} (l : list A) (x : A) :
  find_last P l = Some x -> x ∈ l /\ P x.
Proof.
  rewrite find_last_Some. intros (l1 & l2 & -> & HP & _).
  split; [|done]. apply elem_of_app. right. by left.
Qed.

Lemma metricsMap_of_snoc ms m :
  metricsMap_of (ms ++ [m]) = <[index_key (metric_pair m) := m]> (metricsMap_of ms).
Proof. unfold metricsMap_of. by rewrite foldl_app. Qed.

(** A lookup in the index finds the last record filed under the key. *)
Lemma metricsMap_of_lookup ms k :
  metricsMap_of ms !! k = find_last (fun m => index_key (metric_pair m) = k) ms.
Proof.
  induction ms as [|m ms IH] using rev_ind; [done|].
  rewrite metricsMap_of_snoc, find_last_snoc, lookup_insert.
  repeat case_decide; congruence.
Qed.

Lemma metricsMap_of_nil k : metricsMap_of [] !! k = None.
Proof. done. Qed.

(** Records with another pair never decide a lookup when no record aliases
    the looked-up pair. *)
Lemma find_last_key_pair ms (pr : string * string) :
  (forall m, m ∈ ms -> index_key (metric_pair m) = index_key pr -> metric_pair m = pr) ->
  find_last (fun m => index_key (metric_pair m) = index_key pr) ms
  = find_last (fun m => metric_pair m = pr) ms.
Proof.
  induction ms as [|m ms IH] using rev_ind; [done|]. intros Hno.
  rewrite !find_last_snoc, IH.
  - repeat case_decide; try done.
    + exfalso. apply H0, Hno; [|done]. apply elem_of_app. right. by left.
    + exfalso. apply H. by f_equal.
  - intros m' Hin. apply Hno, elem_of_app. by left.
Qed.

(** Concatenation is injective once the provider identities have one
    length, as the hexadecimal addresses of identities do. *)
Lemma index_key_inj_same_length (p1 p2 : string * string) :
  String.length p1.1 = String.length p2.1 ->
  index_key p1 = index_key p2 -> p1 = p2.
Proof.
  destruct p1 as [a1 b1], p2 as [a2 b2]. unfold index_key. simpl.
  revert a2. induction a1 as [|c a1 IH]; intros [|c2 a2]; simpl; try done.
  - intros _ E. change (b1 = b2) in E. by subst.
  - intros [= Hl] E.
    change (String c (a1 +:+ b1) = String c2 (a2 +:+ b2)) in E.
    injection E as -> E. by injection (IH a2 Hl E) as -> ->.
Qed.

End Index.

(** ** The steps of the handler *)

Section Steps.

Context {W : Type}.
Variable uint64_otherwise : float -> Z.

Implicit Types (s : @state W) (h : list proposalDTO) (d : proposalDTO).
Implicit Types (mm : gmap string quality.ConnectMetric).

Lemma with_heap_same s : with_heap s (heap s) = s.
Proof. by destruct s. Qed.

Lemma enrich_pair mm d : dto_pair (enrich mm d) = dto_pair d.
Proof. unfold enrich. by destruct (mm !! _). Qed.

Lemma enrich_idemp mm d : enrich mm (enrich mm d) = enrich mm d.
Proof.
  unfold enrich at 1. rewrite enrich_pair. unfold enrich.
  by destruct (mm !! _).
Qed.

Lemma enrich_empty d : enrich ∅ d = d.
Proof. unfold enrich. by rewrite lookup_empty. Qed.

(** The DTO keeps every field but [Metrics]. *)
Lemma enrich_other_fields mm d : other_fields_equal d (enrich mm d).
Proof. unfold enrich. destruct (mm !! _); by repeat split. Qed.

(** Two lookups of one DTO, in whatever indexes, agree outside [Metrics]. *)
Lemma enrich_enrich_other_fields mm mm' d :
  other_fields_equal (enrich mm d) (enrich mm' d).
Proof. unfold enrich. destruct (mm !! _), (mm' !! _); by repeat split. Qed.

(** What a lookup leaves in [Metrics]: the counts of the record found, or
    what was there. *)
Lemma enrich_Metrics mm d :
  Metrics (enrich mm d)
  = match mm !! index_key (dto_pair d) with
    | Some mc => Some {| ConnectCount := quality.ConnectCount_of mc |}
    | None => Metrics d
    end.
Proof. unfold enrich. by destruct (mm !! _). Qed.

Lemma visit_length mm ps h : length (visit mm h ps) = length h.
Proof.
  revert h. induction ps as [|p ps IH]; intros h; [done|].
  unfold visit in *. simpl. by rewrite IH, length_alter.
Qed.

(** Visiting touches exactly the addresses visited, whatever their order
    and however often an address occurs. *)
Lemma visit_lookup mm ps h (i : nat) :
  visit mm h ps !! i = if decide (i ∈ ps) then enrich mm <$> h !! i else h !! i.
Proof.
  revert h. induction ps as [|p ps IH]; intros h.
  - by rewrite decide_False by apply not_elem_of_nil.
  - unfold visit in *. simpl. rewrite IH.
    destruct (decide (p = i)) as [->|Hne].
    + rewrite list_lookup_alter_eq.
      rewrite (decide_True (P := i ∈ i :: ps)) by left.
      case_decide; [|done].
      destruct (h !! i); simpl; [|done]. by rewrite enrich_idemp.
    + rewrite list_lookup_alter_ne by done.
      case_decide as Hin.
      * rewrite decide_True; [done|by right].
      * rewrite decide_False; [done|]. intros [->|?]%elem_of_cons; done.
Qed.

(** The second loop never panics on allocated pointers. *)
Lemma attach_metrics_run mm ps s :
  Forall (fun p => (p < length (heap s))%nat) ps ->
  attach_metrics mm ps s = Some (tt, with_heap s (visit mm (heap s) ps)).
Proof.
  revert s. induction ps as [|p ps IH]; intros s Hps.
  - simpl. unfold ret. by rewrite with_heap_same.
  - apply Forall_cons in Hps as [Hp Hps].
    destruct (lookup_lt_is_Some_2 _ _ Hp) as [d Hd].
    cbn [attach_metrics]. unfold bind at 1, load. rewrite Hd.
    cbv beta iota. unfold bind at 1.
    change (ProviderID d +:+ ServiceType d) with (index_key (dto_pair d)).
    assert (Hstep : forall s1 : @state W,
               s1 = with_heap s (alter (enrich mm) p (heap s)) ->
               attach_metrics mm ps s1 = Some (tt, with_heap s (visit mm (heap s) (p :: ps)))).
    { intros s1 ->. rewrite IH.
      - done.
      - simpl. rewrite length_alter. done. }
    destruct (mm !! index_key (dto_pair d)) as [mc|] eqn:Hk.
    + unfold store. rewrite Hd. apply Hstep. unfold with_heap. f_equal.
      apply list_eq. intros j. destruct (decide (p = j)) as [->|].
      * rewrite list_lookup_insert_eq, list_lookup_alter_eq, Hd by done.
        simpl. unfold enrich. by rewrite Hk.
      * by rewrite list_lookup_insert_ne, list_lookup_alter_ne.
    + unfold ret. apply Hstep. rewrite <- (with_heap_same s) at 1. f_equal.
      apply list_eq. intros j. destruct (decide (p = j)) as [->|].
      * rewrite list_lookup_alter_eq, Hd. simpl. unfold enrich. by rewrite Hk.
      * by rewrite list_lookup_alter_ne.
Qed.

(** A pointer outside the heap makes the second loop panic. *)
Lemma attach_metrics_nil mm p ps s :
  heap s !! p = None -> attach_metrics mm (p :: ps) s = None.
Proof. intros Hp. cbn [attach_metrics]. unfold bind, load. by rewrite Hp. Qed.

Lemma addProposalMetrics_run proposals metrics s :
  Forall (fun p => (p < length (heap s))%nat) (elems proposals) ->
  addProposalMetrics proposals metrics s
  = Some (tt, with_heap s (visit (metricsMap_of metrics) (heap s) (elems proposals))).
Proof. apply attach_metrics_run. Qed.

(** The projection loop allocates one DTO per proposal, in order, and
    leaves a slice that is not [nil] when it started from one. *)
Lemma project_all_run (ps : list market.ServiceProposal) (acc : list ptr) s :
  project_all uint64_otherwise ps (mk_slice acc) s
  = Some (mk_slice (acc ++ seq (length (heap s)) (length ps)),
          with_heap s (heap s ++ map (proposalDTO_of uint64_otherwise) ps)).
Proof.
  revert acc s. induction ps as [|p ps IH]; intros acc s.
  - simpl. unfold ret. by rewrite !app_nil_r, with_heap_same.
  - cbn [project_all]. unfold bind, proposalToRes, new, append. rewrite IH. simpl.
    rewrite length_app, Nat.add_1_r. unfold with_heap. simpl.
    by rewrite <- !app_assoc.
Qed.

Lemma load_all_run (ps : list ptr) (ds : list proposalDTO) s :
  Forall2 (fun p d => heap s !! p = Some d) ps ds ->
  load_all ps s = Some (ds, s).
Proof.
  induction 1 as [|p d ps ds Hp _ IH]; [done|].
  cbn [load_all]. unfold bind at 1, load. rewrite Hp.
  unfold bind. by rewrite IH.
Qed.

Lemma seq_addresses h (ds : list proposalDTO) :
  Forall2 (fun p d => (h ++ ds) !! p = Some d) (seq (length h) (length ds)) ds.
Proof.
  revert h. induction ds as [|d ds IH]; intros h; [constructor|].
  simpl. constructor.
  - by rewrite list_lookup_middle.
  - specialize (IH (h ++ [d])).
    rewrite length_app, Nat.add_1_r, <- app_assoc in IH. exact IH.
Qed.

(** Visiting the addresses of a freshly allocated block enriches the block
    and nothing else. *)
Lemma visit_block mm h (ds : list proposalDTO) :
  visit mm (h ++ ds) (seq (length h) (length ds)) = h ++ map (enrich mm) ds.
Proof.
  apply list_eq. intros i. rewrite visit_lookup.
  destruct (decide (i < length h)%nat) as [Hlt|Hge].
  - rewrite decide_False by (rewrite elem_of_seq; lia).
    by rewrite !lookup_app_l.
  - rewrite !lookup_app_r by lia. rewrite list_lookup_fmap.
    case_decide as Hin; [done|].
    rewrite elem_of_seq in Hin.
    rewrite !lookup_ge_None_2; [done|lia].
Qed.

End Steps.

(** ** The runs of [List] *)

Section Runs.

Context {W : Type}.
Variable uint64_otherwise : float -> Z.
Variable pe : proposalsEndpoint W.

Implicit Types (s : @state W) (req : url.Values) (key : string).

Abbreviation List := (List uint64_otherwise pe).
Abbreviation proposalDTO_of := (proposalDTO_of uint64_otherwise).
Abbreviation repository := (@proposal.Proposals W (proposalRepository pe)).
Abbreviation finder := (@ProposalsMetrics W (qualityProvider pe)).

Lemma failing_bound_None req :
  failing_bound req = None <->
  forall key, key ∈ bound_keys -> (parsePriceBound req key).2 = None.
Proof.
  unfold failing_bound. split.
  - intros Hnone key Hin.
    destruct (list_find _ bound_keys) as [[i k]|] eqn:Hfind; [done|].
    rewrite list_find_None, Forall_forall in Hfind.
    specialize (Hfind key Hin).
    destruct (parsePriceBound req key).2; [|done].
    by destruct Hfind.
  - intros Hall.
    destruct (list_find _ bound_keys) as [[i k]|] eqn:Hfind; [|done].
    apply list_find_Some in Hfind as (Hk & [e He] & _).
    rewrite Hall in He; [done|]. by eapply list_elem_of_lookup_2.
Qed.

Lemma failing_bound_Some req key :
  failing_bound req = Some key ->
  key ∈ bound_keys /\ is_Some (parsePriceBound req key).2.
Proof.
  unfold failing_bound.
  destruct (list_find _ bound_keys) as [[i k]|] eqn:Hfind; [|done].
  intros [= <-]. apply list_find_Some in Hfind as (Hk & He & _).
  split; [by eapply list_elem_of_lookup_2|done].
Qed.

(** A bound that fails to parse ends the request at once: status 400, the
    parser's error, and a state left as it was. *)
Lemma List_bound_error req s key :
  failing_bound req = Some key ->
  exists e, (parsePriceBound req key).2 = Some e /\
            List req s = Some ({| status := StatusBadRequest; payload := errorBody e |}, s).
Proof.
  unfold failing_bound, bound_keys, endpoints.List. cbn [list_find].
  destruct (parsePriceBound req "upper_time_price_bound") as [b1 [e1|]] eqn:E1; cbn.
  { intros [= <-]. rewrite E1. by exists e1. }
  destruct (parsePriceBound req "lower_time_price_bound") as [b2 [e2|]] eqn:E2; cbn.
  { intros [= <-]. rewrite E2. by exists e2. }
  destruct (parsePriceBound req "upper_gb_price_bound") as [b3 [e3|]] eqn:E3; cbn.
  { intros [= <-]. rewrite E3. by exists e3. }
  destruct (parsePriceBound req "lower_gb_price_bound") as [b4 [e4|]] eqn:E4; cbn.
  { intros [= <-]. rewrite E4. by exists e4. }
  done.
Qed.

(** Once the four bounds parse, the handler is the tail of [List] run on
    the filter read from the request. *)
Lemma List_bounds_ok req s :
  failing_bound req = None ->
  List req s =
  bind (call_Proposals pe (filter_of req))
    (fun r =>
       match r.2 with
       | Some err => SendError err StatusInternalServerError
       | None =>
           bind (project_all uint64_otherwise r.1 (mk_slice []))
             (fun res =>
                bind (if decide (url.Get req "fetch_connect_counts" = "true")
                      then bind (call_ProposalsMetrics pe)
                                (fun metrics => addProposalMetrics res metrics)
                      else ret tt)
                  (fun _ => WriteAsJSON {| Proposals := res |}))
       end) s.
Proof.
  intros Hok. rewrite failing_bound_None in Hok.
  unfold endpoints.List, filter_of.
  pose proof (Hok "upper_time_price_bound") as H1.
  pose proof (Hok "lower_time_price_bound") as H2.
  pose proof (Hok "upper_gb_price_bound") as H3.
  pose proof (Hok "lower_gb_price_bound") as H4.
  destruct (parsePriceBound req "upper_time_price_bound") as [b1 e1].
  destruct (parsePriceBound req "lower_time_price_bound") as [b2 e2].
  destruct (parsePriceBound req "upper_gb_price_bound") as [b3 e3].
  destruct (parsePriceBound req "lower_gb_price_bound") as [b4 e4].
  simpl in *.
  rewrite H1, H2, H3, H4 by (unfold bound_keys; set_solver).
  unfold bind. destruct (call_Proposals _ _ s) as [[[ps [e|]] s1]|]; reflexivity.
Qed.

(** The repository's error ends the request: status 500, one logged call,
    nothing allocated. *)
Lemma List_repository_error req s ps e w :
  failing_bound req = None ->
  repository (filter_of req) (world s) = ((ps, Some e), w) ->
  List req s
  = Some ({| status := StatusInternalServerError; payload := errorBody e |},
          {| world := w; calls := calls s ++ [callProposals (filter_of req)];
             heap := heap s |}).
Proof.
  intros Hok Hrepo. rewrite List_bounds_ok by done.
  unfold bind, call_Proposals. by rewrite Hrepo.
Qed.

(** Without the flag the answer is the projected list. *)
Lemma List_plain req s ps w :
  failing_bound req = None ->
  repository (filter_of req) (world s) = ((ps, None), w) ->
  url.Get req "fetch_connect_counts" <> "true" ->
  List req s
  = Some ({| status := StatusOK;
             payload := proposalsBody (json_array (map proposalDTO_of ps)) |},
          {| world := w; calls := calls s ++ [callProposals (filter_of req)];
             heap := heap s ++ map proposalDTO_of ps |}).
Proof.
  intros Hok Hrepo Hflag. rewrite List_bounds_ok by done.
  unfold bind at 1. unfold call_Proposals. rewrite Hrepo. cbn [fst snd].
  unfold bind at 1. rewrite project_all_run. cbn [heap app].
  rewrite decide_False by done.
  unfold bind, ret, WriteAsJSON. cbn [Proposals].
  pose proof (seq_addresses (heap s) (map proposalDTO_of ps)) as Hl.
  rewrite length_map in Hl.
  unfold bind. erewrite load_all_run; [done|exact Hl].
Qed.

(** With the flag the quality finder is asked once and every projected
    DTO is looked up in the index of its answer. *)
Lemma List_enriched req s ps w ms w' :
  failing_bound req = None ->
  repository (filter_of req) (world s) = ((ps, None), w) ->
  url.Get req "fetch_connect_counts" = "true" ->
  finder w = (ms, w') ->
  List req s
  = Some ({| status := StatusOK;
             payload := proposalsBody
                          (json_array (map (enrich (metricsMap_of ms))
                                           (map proposalDTO_of ps))) |},
          {| world := w';
             calls := calls s ++ [callProposals (filter_of req); callProposalsMetrics];
             heap := heap s ++ map (enrich (metricsMap_of ms)) (map proposalDTO_of ps) |}).
Proof.
  intros Hok Hrepo Hflag Hfind. rewrite List_bounds_ok by done.
  unfold bind at 1. unfold call_Proposals. rewrite Hrepo. cbn [fst snd].
  unfold bind at 1. rewrite project_all_run. cbn [heap app].
  rewrite decide_True by done.
  unfold bind at 1. unfold bind at 1. unfold call_ProposalsMetrics.
  cbn [world with_heap]. rewrite Hfind.
  rewrite addProposalMetrics_run.
  - cbn [elems heap with_heap world calls].
    rewrite <- (length_map proposalDTO_of ps).
    rewrite visit_block.
    unfold WriteAsJSON. cbn [Proposals]. unfold bind, ret.
    erewrite load_all_run.
    + by rewrite <- app_assoc.
    + cbn [heap].
      rewrite <- (length_map (enrich (metricsMap_of ms)) (map proposalDTO_of ps)).
      apply seq_addresses.
  - cbn [elems heap with_heap]. apply Forall_forall. intros p Hp.
    apply elem_of_seq in Hp. rewrite length_app, length_map. lia.
Qed.

(** Once the bounds parse the handler answers, and its only call on the
    repository carries the filter read from the request. *)
Lemma List_answers req s :
  failing_bound req = None ->
  exists (resp : response) s' (new : list call),
    List req s = Some (resp, s')
    /\ calls s' = calls s ++ new
    /\ repository_calls new = [filter_of req].
Proof.
  intros Hok.
  destruct (repository (filter_of req) (world s)) as [[ps [e|]] w] eqn:Hrepo.
  - eexists _, _, [callProposals (filter_of req)].
    split; [by eapply List_repository_error|]. done.
  - destruct (decide (url.Get req "fetch_connect_counts" = "true")) as [Hflag|Hflag].
    + destruct (finder w) as [ms w'] eqn:Hfind.
      eexists _, _, [callProposals (filter_of req); callProposalsMetrics].
      split; [by eapply List_enriched|]. done.
    + eexists _, _, [callProposals (filter_of req)].
      split; [by eapply List_plain|]. done.
Qed.

End Runs.

(** ** The bound parser against the decimal numerals *)

Section Parser.

Import strconv.

Local Abbreviation cutoff := (maxUint64 / 10 + 1).

Lemma digit_value_cases (c : ascii) :
  match digit_value (byte_of c) with
  | Some d => (is_digit c = true /\ d = byte_of c - 48 /\ 0 <= d < 10)
              \/ (is_digit c = false /\ 10 <= d)
  | None => is_digit c = false
  end.
Proof.
  unfold digit_value, is_digit.
  destruct ((48 <=? byte_of c) && (byte_of c <=? 57)) eqn:Hd.
  - left. apply andb_true_iff in Hd as [H1 H2]. lia.
  - destruct ((97 <=? lower (byte_of c)) && (lower (byte_of c) <=? 122)) eqn:Hl; [|done].
    right. apply andb_true_iff in Hl as [H1 H2]. lia.
Qed.

Lemma decimal_value_ge (s : string) (acc v : Z) :
  0 <= acc -> decimal_value s acc = Some v -> acc <= v.
Proof.
  revert acc. induction s as [|c s IH]; intros acc Hacc; simpl.
  - intros [= <-]. lia.
  - destruct (is_digit c) eqn:Hc; [|done]. intros Hv.
    unfold is_digit in Hc. apply andb_true_iff in Hc as [H1 H2].
    apply IH in Hv; lia.
Qed.

(** The loop accepts exactly the digit strings whose value, continued from
    the accumulator, fits 64 bits, and returns that value. *)
Lemma parse_loop_accepts (s0 s : string) (n v : Z) :
  0 <= n < 2 ^ 64 ->
  parse_loop 10 cutoff s0 s n = (v, None) <->
  decimal_value s n = Some v /\ v < 2 ^ 64.
Proof.
  revert n. induction s as [|c s IH]; intros n Hn; simpl.
  - split; [intros [= <-]; split; [done|lia] | intros [[= <-] _]; done].
  - pose proof (digit_value_cases c) as Hc.
    destruct (digit_value (byte_of c)) as [d|]; [|rewrite Hc; split; [done|by intros [? _]]].
    destruct Hc as [(Hc & -> & Hd)|[Hc Hd]]; rewrite Hc.
    2:{ rewrite (proj2 (Z.leb_le 10 d)) by done. split; [done|by intros [? _]]. }
    rewrite (proj2 (Z.leb_gt 10 _)) by lia.
    destruct (cutoff <=? n) eqn:Hcut.
    + apply Z.leb_le in Hcut. split; [done|]. intros [Hv Hlt].
      apply decimal_value_ge in Hv; [|lia].
      unfold maxUint64 in Hcut. exfalso. revert Hcut Hv Hlt.
      change (2 ^ 64) with 18446744073709551616.
      change ((18446744073709551616 - 1) / 10 + 1) with 1844674407370955162. lia.
    + apply Z.leb_gt in Hcut.
      assert (Hmul : 0 <= n * 10 < 2 ^ 64).
      { unfold maxUint64 in Hcut. revert Hcut.
        change (2 ^ 64) with 18446744073709551616.
        change ((18446744073709551616 - 1) / 10 + 1) with 1844674407370955162. lia. }
      rewrite (Z.mod_small (n * 10)) by done.
      destruct (decide (n * 10 + (byte_of c - 48) < 2 ^ 64)) as [Hfit|Hover].
      * rewrite (Z.mod_small (n * 10 + _)) by lia.
        rewrite (proj2 (Z.ltb_ge _ _)) by lia.
        rewrite (proj2 (Z.ltb_ge _ _)) by (unfold maxUint64; lia).
        simpl. apply IH. lia.
      * assert (Hwrap : (n * 10 + (byte_of c - 48)) mod 2 ^ 64
                        = n * 10 + (byte_of c - 48) - 2 ^ 64).
        { symmetry. apply Z.mod_unique with 1; lia. }
        rewrite Hwrap. rewrite (proj2 (Z.ltb_lt _ _)) by lia. simpl.
        split; [done|]. intros [Hv Hlt].
        apply decimal_value_ge in Hv; lia.
Qed.

(** Every error of the loop names the whole input. *)
Lemma parse_loop_error (s0 s : string) (n v : Z) (e : NumError) :
  parse_loop 10 cutoff s0 s n = (v, Some e) -> Func e = "ParseUint" /\ Num e = s0.
Proof.
  revert n. induction s as [|c s IH]; intros n; simpl; [done|].
  destruct (digit_value (byte_of c)) as [d|]; [|by intros [= <- <-]].
  destruct (10 <=? d); [by intros [= <- <-]|].
  destruct (cutoff <=? n); [by intros [= <- <-]|].
  destruct (_ || _); [by intros [= <- <-]|]. apply IH.
Qed.

(** [ParseUint], base 10 and 64 bits, accepts exactly the decimal
    numerals below [2^64]. *)
Lemma ParseUint10_accepts (s : string) (v : Z) :
  ParseUint10 s = (v, None) <-> s <> "" /\ decimal_value s 0 = Some v /\ v < 2 ^ 64.
Proof.
  destruct s as [|c s].
  - split; [done|]. by intros [? _].
  - unfold ParseUint10. rewrite parse_loop_accepts by done.
    split; [by intros [? ?]|]. by intros (_ & ? & ?).
Qed.

Lemma ParseUint10_error (s : string) (v : Z) (e : NumError) :
  ParseUint10 s = (v, Some e) -> Func e = "ParseUint" /\ Num e = s.
Proof.
  destruct s as [|c s]; [by intros [= <- <-]|].
  unfold ParseUint10. apply parse_loop_error.
Qed.

Lemma ParseUint10_rejects (s : string) :
  ~ parses_as_uint64 s -> exists v e, ParseUint10 s = (v, Some e) /\ Num e = s.
Proof.
  intros Hno. destruct (ParseUint10 s) as [v [e|]] eqn:Hp.
  - exists v, e. split; [done|]. by apply ParseUint10_error in Hp as [_ ?].
  - exfalso. apply Hno. apply ParseUint10_accepts in Hp as (? & ? & ?).
    split; [done|]. by exists v.
Qed.

(** [parsePriceBound] fails exactly on a value that is not empty and is
    not a decimal numeral below [2^64]. *)
Lemma parsePriceBound_error (req : url.Values) (key : string) :
  is_Some (parsePriceBound req key).2 <->
  url.Get req key <> "" /\ ~ parses_as_uint64 (url.Get req key).
Proof.
  unfold parsePriceBound. case_decide as Hempty.
  - split; [by intros [? ?]|]. by intros [? _].
  - destruct (ParseUint10 (url.Get req key)) as [v [e|]] eqn:Hp; simpl.
    + split; [|by eexists]. intros _. split; [done|].
      intros (_ & v' & Hv' & Hlt).
      assert (ParseUint10 (url.Get req key) = (v', None)) as Hok
          by by apply ParseUint10_accepts.
      congruence.
    + split; [by intros [? ?]|]. intros [_ Hno]. exfalso. apply Hno.
      apply ParseUint10_accepts in Hp as (? & ? & ?). split; [done|]. by exists v.
Qed.

(** The error of [parsePriceBound] is the error of [ParseUint] on the
    parameter's value, as it is. *)
Lemma parsePriceBound_error_value (req : url.Values) (key : string) (err : error) :
  (parsePriceBound req key).2 = Some err ->
  exists e, err = ofNumError e
            /\ (ParseUint10 (url.Get req key)).2 = Some e
            /\ Func e = "ParseUint" /\ Num e = url.Get req key.
Proof.
  unfold parsePriceBound. case_decide; [done|].
  destruct (ParseUint10 (url.Get req key)) as [v [e|]] eqn:Hp; simpl; [|done].
  intros [= <-]. exists e. split; [done|]. split; [done|]. by apply ParseUint10_error in Hp.
Qed.

(** The failing bound is the first in the order of parsing: every
    parameter before it is empty or a decimal numeral below [2^64]. *)
Lemma failing_bound_first (req : url.Values) (key : string) :
  failing_bound req = Some key ->
  exists i : nat,
    bound_keys !! i = Some key
    /\ forall (j : nat) earlier, (j < i)%nat -> bound_keys !! j = Some earlier ->
          url.Get req earlier = "" \/ parses_as_uint64 (url.Get req earlier).
Proof.
  unfold failing_bound.
  destruct (list_find _ bound_keys) as [[i k]|] eqn:Hfind; [|done].
  intros [= <-]. apply list_find_Some in Hfind as (Hk & _ & Hbefore).
  exists i. split; [done|]. intros j earlier Hj Hearlier.
  specialize (Hbefore j earlier Hearlier Hj).
  destruct (decide (url.Get req earlier = "")) as [|Hne]; [by left|]. right.
  unfold parsePriceBound in Hbefore. rewrite decide_False in Hbefore by done.
  destruct (ParseUint10 (url.Get req earlier)) as [v [e|]] eqn:Hp.
  - exfalso. apply Hbefore. by eexists.
  - apply ParseUint10_accepts in Hp as (? & ? & ?). split; [done|]. by exists v.
Qed.

End Parser.

(** ** The quality correlator *)

(** C1. The index key is the plain concatenation of provider and service,
    which is not injective on pairs: the metric record of the pair
    ("ab", "c") is filed under the key of the different pair ("a", "bc"),
    and a request for connect counts attaches that record's counts to the
    proposal of provider "a" and service "bc". *)
Theorem index_key_aliases_pairs :
  ("ab", "c") <> ("a", "bc")
  /\ index_key ("ab", "c") = index_key ("a", "bc")
  /\ metricsMap_of [sample.metric "ab" "c" 5] !! index_key ("a", "bc")
     = Some (sample.metric "ab" "c" 5)
  /\ exists s',
       List sample.otherwise
            (sample.endpoint [sample.offer 1 "a" "bc" time.Minute] None
                             [sample.metric "ab" "c" 5])
            sample.with_counts sample.start
       = Some ({| status := StatusOK;
                  payload := proposalsBody (json_array
                    [set_Metrics
                       (Some {| ConnectCount := quality.ConnectCount_of (sample.metric "ab" "c" 5) |})
                       (proposalDTO_of sample.otherwise (sample.offer 1 "a" "bc" time.Minute))]) |},
               s').
Proof.
  split; [done|]. split; [done|]. split; [by vm_compute|].
  eexists. vm_compute. reflexivity.
Qed.

Section Correlator.

Context {W : Type}.
Variable uint64_otherwise : float -> Z.
Variable pe : proposalsEndpoint W.

Implicit Types (s : @state W) (req : url.Values).
Implicit Types (ms : list quality.ConnectMetric) (m : quality.ConnectMetric).

Local Abbreviation List := (List uint64_otherwise pe).
Local Abbreviation proposalDTO_of := (proposalDTO_of uint64_otherwise).
Local Abbreviation repository := (@proposal.Proposals W (proposalRepository pe)).
Local Abbreviation finder := (@ProposalsMetrics W (qualityProvider pe)).

(** C10. When several metric records are filed under one index key, the
    last of them in the list is the one the index holds, and a DTO with
    that key receives its connect counts: after the call the DTO the
    pointer leads to has the counts of that last record in its metrics
    field and every other field as before. *)
Theorem last_record_wins (ms1 ms2 : list quality.ConnectMetric) m
        (proposals : slice ptr) s (p : ptr) (d : proposalDTO) :
  Forall (fun m' => index_key (metric_pair m') <> index_key (metric_pair m)) ms2 ->
  Forall (fun q => (q < length (heap s))%nat) (elems proposals) ->
  p ∈ elems proposals ->
  heap s !! p = Some d ->
  index_key (dto_pair d) = index_key (metric_pair m) ->
  metricsMap_of (ms1 ++ m :: ms2) !! index_key (metric_pair m) = Some m
  /\ exists s' (d' : proposalDTO),
       addProposalMetrics proposals (ms1 ++ m :: ms2) s = Some (tt, s')
       /\ heap s' !! p = Some d'
       /\ Metrics d' = Some {| ConnectCount := quality.ConnectCount_of m |}
       /\ ID d' = ID d
       /\ ProviderID d' = ProviderID d
       /\ ServiceType d' = ServiceType d
       /\ ServiceDefinition d' = ServiceDefinition d
       /\ AccessPolicies d' = AccessPolicies d
       /\ PaymentMethod d' = PaymentMethod d.
Proof.
  intros Hlast Hvalid Hin Hd Hkey.
  assert (Hm : metricsMap_of (ms1 ++ m :: ms2) !! index_key (metric_pair m) = Some m).
  { rewrite metricsMap_of_lookup. apply find_last_Some. by exists ms1, ms2. }
  split; [done|].
  rewrite addProposalMetrics_run by done.
  eexists _, (enrich (metricsMap_of (ms1 ++ m :: ms2)) d). split; [done|].
  split; [cbn [heap with_heap]; by rewrite visit_lookup, decide_True, Hd|].
  split; [by rewrite enrich_Metrics, Hkey, Hm|].
  apply enrich_other_fields.
Qed.

(** Away from aliased keys the correlation is by pair. For a request whose
    bounds parse, whose repository call succeeds and which asks for
    connect counts, the answer is an array with one DTO per proposal, each
    the projection of its proposal up to the metrics field. The step does
    not fail, and an empty metrics list leaves every metrics field absent.
    For a DTO whose index key is shared by no record of another pair: if
    some record has the DTO's pair, the DTO carries the counts of the last
    such record; if none has, its metrics field is absent. *)
Theorem enrichment_by_pair req s (ps : list market.ServiceProposal) (w w' : W) ms :
  failing_bound req = None ->
  repository (filter_of req) (world s) = ((ps, None), w) ->
  url.Get req "fetch_connect_counts" = "true" ->
  finder w = (ms, w') ->
  exists (ds : list proposalDTO) s',
    List req s = Some ({| status := StatusOK; payload := proposalsBody (json_array ds) |}, s')
    /\ length ds = length ps
    /\ forall (i : nat) (p : market.ServiceProposal),
         ps !! i = Some p ->
         exists d, ds !! i = Some d
           /\ other_fields_equal (proposalDTO_of p) d
           /\ (ms = [] -> Metrics d = None)
           /\ ((forall m, m ∈ ms ->
                          index_key (metric_pair m) = index_key (dto_pair d) ->
                          metric_pair m = dto_pair d) ->
               ((exists m, m ∈ ms /\ metric_pair m = dto_pair d) ->
                exists m, find_last (fun m => metric_pair m = dto_pair d) ms = Some m
                          /\ Metrics d = Some {| ConnectCount := quality.ConnectCount_of m |})
               /\ ((forall m, m ∈ ms -> metric_pair m <> dto_pair d) -> Metrics d = None)).
Proof.
  intros Hok Hrepo Hflag Hfind.
  eexists _, _. split; [by eapply List_enriched|].
  split; [by rewrite !length_map|].
  intros i p Hp. exists (enrich (metricsMap_of ms) (proposalDTO_of p)).
  split; [by rewrite !list_lookup_fmap, Hp|].
  split; [apply enrich_other_fields|].
  split; [intros ->; by rewrite enrich_empty|].
  rewrite enrich_pair. intros Hnoalias.
  unfold enrich. rewrite metricsMap_of_lookup, find_last_key_pair by done.
  split.
  - intros (m & Hm & Hpair).
    destruct (find_last _ ms) as [m'|] eqn:Hlast.
    + by exists m'.
    + apply find_last_None in Hlast. rewrite Forall_forall in Hlast.
      by destruct (Hlast m Hm).
  - intros Hnone.
    destruct (find_last _ ms) as [m'|] eqn:Hlast; [|done].
    apply find_last_elem_of in Hlast as [Hm' Hpair]. by destruct (Hnone m' Hm').
Qed.

End Correlator.

(** ** The handler *)

Section Answers.

Context {W : Type}.
Variable uint64_otherwise : float -> Z.
Variable pe : proposalsEndpoint W.

Implicit Types (s : @state W) (req : url.Values) (key : string).

Local Abbreviation List := (List uint64_otherwise pe).
Local Abbreviation proposalDTO_of := (proposalDTO_of uint64_otherwise).
Local Abbreviation repository := (@proposal.Proposals W (proposalRepository pe)).
Local Abbreviation finder := (@ProposalsMetrics W (qualityProvider pe)).

(** C2, as the code has it. When one of the four bound parameters is not
    empty and is not a decimal numeral below [2^64], the answer is a 400
    that carries the error of [strconv.ParseUint] on the value of the
    first such parameter in the order of parsing, the very error
    [parsePriceBound] returned for it; every parameter parsed before it is
    empty or a numeral; the error names the function and the offending
    text; the state is left as it was, so no collaborator is called. *)
Theorem malformed_bound_rejected req s key :
  key ∈ bound_keys ->
  url.Get req key <> "" ->
  ~ parses_as_uint64 (url.Get req key) ->
  exists (first : string) (e : strconv.NumError) (i : nat),
    failing_bound req = Some first
    /\ bound_keys !! i = Some first
    /\ (forall (j : nat) earlier, (j < i)%nat -> bound_keys !! j = Some earlier ->
           url.Get req earlier = "" \/ parses_as_uint64 (url.Get req earlier))
    /\ url.Get req first <> "" /\ ~ parses_as_uint64 (url.Get req first)
    /\ (strconv.ParseUint10 (url.Get req first)).2 = Some e
    /\ (parsePriceBound req first).2 = Some (ofNumError e)
    /\ strconv.Func e = "ParseUint" /\ strconv.Num e = url.Get req first
    /\ List req s
       = Some ({| status := StatusBadRequest; payload := errorBody (ofNumError e) |}, s).
Proof.
  intros Hkey Hne Hbad.
  destruct (failing_bound req) as [first|] eqn:Hfail.
  - destruct (List_bound_error uint64_otherwise pe req s first Hfail) as (err & Herr & Hrun).
    destruct (parsePriceBound_error_value _ _ _ Herr) as (e & -> & Hparse & Hf & Hn).
    destruct (failing_bound_first req first Hfail) as (i & Hi & Hbefore).
    exists first, e, i. split; [done|]. split; [done|]. split; [done|].
    assert (is_Some (parsePriceBound req first).2) as Hsome by by eexists.
    apply parsePriceBound_error in Hsome as [? ?]. done.
  - exfalso. rewrite failing_bound_None in Hfail. specialize (Hfail key Hkey).
    assert (is_Some (parsePriceBound req key).2) as [? Hsome]
        by by apply parsePriceBound_error.
    congruence.
Qed.

(** C4, as the code has it. For a request whose bounds parse the handler
    answers and calls the repository exactly once, with the filter read
    from the request; when that call returns an error the answer is a 500
    with that error, no DTO is allocated and the quality finder is not
    called. *)
Theorem one_repository_call req s :
  failing_bound req = None ->
  exists (resp : response) s' (new : list call),
    List req s = Some (resp, s')
    /\ calls s' = calls s ++ new
    /\ repository_calls new = [filter_of req]
    /\ forall ps e w,
         repository (filter_of req) (world s) = ((ps, Some e), w) ->
         resp = {| status := StatusInternalServerError; payload := errorBody e |}
         /\ new = [callProposals (filter_of req)]
         /\ metrics_calls new = 0%nat
         /\ heap s' = heap s.
Proof.
  intros Hok.
  destruct (repository (filter_of req) (world s)) as [[ps [e|]] w] eqn:Hrepo.
  - eexists _, _, [callProposals (filter_of req)].
    split; [by eapply List_repository_error|].
    split; [done|]. split; [done|]. by intros ps' e' w' [= _ <- _].
  - destruct (decide (url.Get req "fetch_connect_counts" = "true")) as [Hflag|Hflag].
    + destruct (finder w) as [ms w'] eqn:Hfind.
      eexists _, _, [callProposals (filter_of req); callProposalsMetrics].
      split; [by eapply List_enriched|]. by repeat split.
    + eexists _, _, [callProposals (filter_of req)].
      split; [by eapply List_plain|]. by repeat split.
Qed.

(** C5, as the code has it. Every request is answered, and the quality
    finder is called once when the bounds parse, the repository call
    succeeds and [fetch_connect_counts] is the string "true", and not at
    all otherwise; in the first case the answer is the projected list
    enriched from the finder's records. *)
Theorem metrics_only_on_true req s :
  exists (resp : response) s' (new : list call),
    List req s = Some (resp, s')
    /\ calls s' = calls s ++ new
    /\ metrics_calls new
       = match failing_bound req, (repository (filter_of req) (world s)).1.2 with
         | None, None =>
             if decide (url.Get req "fetch_connect_counts" = "true") then 1%nat else 0%nat
         | _, _ => 0%nat
         end
    /\ (failing_bound req = None ->
        (repository (filter_of req) (world s)).1.2 = None ->
        payload resp
        = proposalsBody (json_array
            (let ps := (repository (filter_of req) (world s)).1.1 in
             if decide (url.Get req "fetch_connect_counts" = "true")
             then map (enrich (metricsMap_of (finder (repository (filter_of req) (world s)).2).1))
                      (map proposalDTO_of ps)
             else map proposalDTO_of ps))).
Proof.
  destruct (failing_bound req) as [key|] eqn:Hfail.
  - destruct (List_bound_error uint64_otherwise pe req s key Hfail) as (e & _ & Hrun).
    eexists _, _, []. split; [exact Hrun|]. by rewrite app_nil_r.
  - destruct (repository (filter_of req) (world s)) as [[ps [e|]] w] eqn:Hrepo; cbn [fst snd].
    + eexists _, _, [callProposals (filter_of req)].
      split; [by eapply List_repository_error|]. done.
    + case_decide as Hflag.
      * destruct (finder w) as [ms w'] eqn:Hfind.
        eexists _, _, [callProposals (filter_of req); callProposalsMetrics].
        split; [by eapply List_enriched|]. done.
      * eexists _, _, [callProposals (filter_of req)].
        split; [by eapply List_plain|]. done.
Qed.

(** C6. For a request whose bounds parse and whose repository call
    succeeds, the answer is a 200 whose proposals member is an array, not
    [null], with one element per proposal; so it is the empty array when
    the repository returns no proposal. *)
Theorem proposals_is_an_array req s (ps : list market.ServiceProposal) (w : W) :
  failing_bound req = None ->
  repository (filter_of req) (world s) = ((ps, None), w) ->
  exists (ds : list proposalDTO) s',
    List req s = Some ({| status := StatusOK; payload := proposalsBody (json_array ds) |}, s')
    /\ length ds = length ps.
Proof.
  intros Hok Hrepo.
  destruct (decide (url.Get req "fetch_connect_counts" = "true")) as [Hflag|Hflag].
  - destruct (finder w) as [ms w'] eqn:Hfind.
    eexists _, _. split; [by eapply List_enriched|]. by rewrite !length_map.
  - eexists _, _. split; [by eapply List_plain|]. by rewrite length_map.
Qed.

(** C8. Whatever the request, every filter the handler passes to the
    repository has [ExcludeUnsupported] set; when the bounds parse, that
    is the one filter of the request, whose other fields come from the
    parameters. *)
Theorem exclude_unsupported_always req s :
  exists (resp : response) s' (new : list call),
    List req s = Some (resp, s')
    /\ calls s' = calls s ++ new
    /\ Forall (fun f => proposal.ExcludeUnsupported f = true) (repository_calls new)
    /\ (failing_bound req = None ->
        exists f, repository_calls new = [f]
                  /\ proposal.ExcludeUnsupported f = true
                  /\ proposal.ProviderID f = url.Get req "provider_id"
                  /\ proposal.ServiceType f = url.Get req "service_type").
Proof.
  destruct (failing_bound req) as [key|] eqn:Hfail.
  - destruct (List_bound_error uint64_otherwise pe req s key Hfail) as (e & _ & Hrun).
    eexists _, _, []. split; [exact Hrun|]. split; [by rewrite app_nil_r|].
    split; [constructor|done].
  - destruct (List_answers uint64_otherwise pe req s Hfail) as (resp & s' & new & Hrun & Hcalls & Hrep).
    exists resp, s', new. split; [done|]. split; [done|].
    rewrite Hrep. split; [by repeat constructor|].
    intros _. by exists (filter_of req).
Qed.

End Answers.

(** ** The encoder and the flag on concrete inputs *)

(** A [nil] slice would be written as [null]: the array of the answer comes
    from the literal [[]*proposalDTO{}] the loop starts from. *)
Lemma nil_slice_is_written_null (s : @state unit) :
  WriteAsJSON {| Proposals := nil_slice |} s
  = Some ({| status := StatusOK; payload := proposalsBody json_null |}, s)
  /\ project_all sample.otherwise [] nil_slice s = Some (nil_slice, s).
Proof. split; reflexivity. Qed.

(** The flag is compared with the string "true" and nothing else counts. *)
Lemma flag_is_compared_literally :
  Forall (fun v =>
            exists resp s',
              List sample.otherwise
                   (sample.endpoint [sample.offer 1 "0xP1" "openvpn" time.Minute] None
                                    [sample.metric "0xP1" "openvpn" 5])
                   {[ "fetch_connect_counts" := [v] ]} sample.start = Some (resp, s')
              /\ metrics_calls (calls s') = 0%nat
              /\ payload resp
                 = proposalsBody (json_array
                     [proposalDTO_of sample.otherwise
                        (sample.offer 1 "0xP1" "openvpn" time.Minute)]))
         ["True"; "TRUE"; "1"; "t"; "yes"; " true"; "true "; "false"; ""].
Proof. repeat (constructor; [eexists _, _; split; [by vm_compute|by split]|]). constructor. Qed.

(** [ParseUint] on the edges of its domain: leading zeros and the largest
    value are accepted; a sign, an underscore, a letter, the empty string
    and any value from [2^64] on are not. *)
Lemma ParseUint10_samples :
  strconv.ParseUint10 "0" = (0, None)
  /\ strconv.ParseUint10 "007" = (7, None)
  /\ strconv.ParseUint10 "18446744073709551615" = (2 ^ 64 - 1, None)
  /\ (strconv.ParseUint10 "18446744073709551616").2
     = Some (strconv.rangeError "ParseUint" "18446744073709551616")
  /\ (strconv.ParseUint10 "").2 = Some (strconv.syntaxError "ParseUint" "")
  /\ (strconv.ParseUint10 "+1").2 = Some (strconv.syntaxError "ParseUint" "+1")
  /\ (strconv.ParseUint10 "-1").2 = Some (strconv.syntaxError "ParseUint" "-1")
  /\ (strconv.ParseUint10 "1_000").2 = Some (strconv.syntaxError "ParseUint" "1_000")
  /\ (strconv.ParseUint10 "abc").2 = Some (strconv.syntaxError "ParseUint" "abc")
  /\ (strconv.ParseUint10 "12a").2 = Some (strconv.syntaxError "ParseUint" "12a").
Proof. repeat split; by vm_compute. Qed.

(** ** The projection of the payment rate *)

(** The byte-based rate is copied. *)
Lemma per_bytes_unchanged (otherwise : float -> Z) (p : market.ServiceProposal) :
  PerBytes (Rate (PaymentMethod (proposalDTO_of otherwise p)))
  = market.PerByte (market.GetRate (market.SP_PaymentMethod p)).
Proof. reflexivity. Qed.

(** On everyday rates the seconds are the whole seconds of the duration. *)
Lemma per_seconds_samples (otherwise : float -> Z) :
  Forall (fun d => PerSeconds (Rate (PaymentMethod
                     (proposalDTO_of otherwise (sample.offer 1 "0xP1" "openvpn" d))))
                   = d / time.Second)
         [0; 1; 999999999; time.Second; 1500000000; time.Minute;
          3600 * time.Second; 86400 * time.Second + 999999999;
          8388607 * time.Second + 999999999].
Proof. repeat (constructor; [by vm_compute|]). constructor. Qed.

(** C7. The seconds are taken from the binary64 value of
    [Duration.Seconds]; for the duration of 16777216.999999999 seconds
    that value is rounded to 16777217, so the DTO reports one second more
    than the whole seconds of the duration. The byte rate is unchanged. *)
Theorem per_seconds_rounds_up (otherwise : float -> Z) :
  let p := sample.offer 2 "0xP1" "openvpn" 16777216999999999 in
  let d := proposalDTO_of otherwise p in
  market.PerTime (market.GetRate (market.SP_PaymentMethod p)) / time.Second = 16777216
  /\ PerSeconds (Rate (PaymentMethod d)) = 16777217
  /\ PerBytes (Rate (PaymentMethod d)) = 7.
Proof. split; [by vm_compute|]. split; [by vm_compute|reflexivity]. Qed.

(** ** The claims on concrete requests *)

(** C2, as stated, fails: the requests [upper_time_price_bound=abc] and
    [lower_gb_price_bound=abc] fail on different parameters and receive
    the same answer, so no reading of the answer names the parameter. *)
Lemma answer_does_not_name_parameter :
  failing_bound sample.bad_upper_time = Some "upper_time_price_bound"
  /\ failing_bound sample.bad_lower_gb = Some "lower_gb_price_bound"
  /\ (exists resp : response,
        resp = {| status := StatusBadRequest;
                  payload := errorBody (ofNumError (strconv.syntaxError "ParseUint" "abc")) |}
        /\ List sample.otherwise (sample.endpoint [] None []) sample.bad_upper_time sample.start
           = Some (resp, sample.start)
        /\ List sample.otherwise (sample.endpoint [] None []) sample.bad_lower_gb sample.start
           = Some (resp, sample.start))
  /\ ~ names_failing_parameter sample.otherwise (sample.endpoint [] None []).
Proof.
  split; [by vm_compute|]. split; [by vm_compute|]. split.
  - eexists. split; [reflexivity|]. split; by vm_compute.
  - intros [which Hwhich].
    pose proof (Hwhich sample.bad_upper_time sample.start sample.start
                  "upper_time_price_bound" _ eq_refl eq_refl) as H1.
    pose proof (Hwhich sample.bad_lower_gb sample.start sample.start
                  "lower_gb_price_bound" _ eq_refl eq_refl) as H2.
    vm_compute in H1, H2. congruence.
Qed.

Lemma malformed_bound_rejected_witness :
  exists (first : string) (e : strconv.NumError) (i : nat),
    failing_bound sample.bad_lower_gb = Some first
    /\ bound_keys !! i = Some first
    /\ (forall (j : nat) earlier, (j < i)%nat -> bound_keys !! j = Some earlier ->
           url.Get sample.bad_lower_gb earlier = ""
           \/ parses_as_uint64 (url.Get sample.bad_lower_gb earlier))
    /\ url.Get sample.bad_lower_gb first <> ""
    /\ ~ parses_as_uint64 (url.Get sample.bad_lower_gb first)
    /\ (strconv.ParseUint10 (url.Get sample.bad_lower_gb first)).2 = Some e
    /\ (parsePriceBound sample.bad_lower_gb first).2 = Some (ofNumError e)
    /\ strconv.Func e = "ParseUint"
    /\ strconv.Num e = url.Get sample.bad_lower_gb first
    /\ List sample.otherwise (sample.endpoint [] None []) sample.bad_lower_gb sample.start
       = Some ({| status := StatusBadRequest; payload := errorBody (ofNumError e) |},
               sample.start).
Proof.
  apply (malformed_bound_rejected sample.otherwise (sample.endpoint [] None [])
           sample.bad_lower_gb sample.start "lower_gb_price_bound").
  - unfold bound_keys. do 3 right. left.
  - vm_compute. discriminate.
  - intros (_ & v & Hv & _). vm_compute in Hv. discriminate.
Defined.

(** C3. With [fetch_connect_counts=true], the records ("ab","c",5) and
    ("0xP1","openvpn",6), and three proposals, the valid request is
    answered with three DTOs. The pair ("a","bc") of the first appears in
    no record, yet the DTO carries the counts 5 of the record of
    ("ab","c"), with which it shares the concatenated key "abc"; the claim
    has its metrics field absent. The second, of a recorded pair, carries
    the counts of its record, and the third, of an unrecorded pair with a
    key of its own, carries none, both as claimed. *)
Theorem unrecorded_pair_receives_counts :
  let ms := [sample.metric "ab" "c" 5; sample.metric "0xP1" "openvpn" 6] in
  let ps := [sample.offer 1 "a" "bc" time.Minute;
             sample.offer 2 "0xP1" "openvpn" time.Minute;
             sample.offer 3 "0xP2" "noop" time.Minute] in
  failing_bound sample.with_counts = None
  /\ url.Get sample.with_counts "fetch_connect_counts" = "true"
  /\ exists (d1 d2 d3 : proposalDTO) s',
       List sample.otherwise (sample.endpoint ps None ms) sample.with_counts sample.start
       = Some ({| status := StatusOK; payload := proposalsBody (json_array [d1; d2; d3]) |}, s')
       /\ dto_pair d1 = ("a", "bc")
       /\ (forall m, m ∈ ms -> metric_pair m <> dto_pair d1)
       /\ Metrics d1
          = Some {| ConnectCount :=
                      {| quality.Success := 5; quality.Fail := 0; quality.Timeout := 0 |} |}
       /\ dto_pair d2 = ("0xP1", "openvpn")
       /\ Metrics d2
          = Some {| ConnectCount :=
                      {| quality.Success := 6; quality.Fail := 0; quality.Timeout := 0 |} |}
       /\ dto_pair d3 = ("0xP2", "noop")
       /\ (forall m, m ∈ ms -> metric_pair m <> dto_pair d3)
       /\ Metrics d3 = None.
Proof.
  intros ms ps. split; [by vm_compute|]. split; [by vm_compute|].
  eexists _, _, _, _. split; [vm_compute; reflexivity|].
  split; [reflexivity|]. split.
  { intros m Hm Hpair. subst ms.
    repeat (apply elem_of_cons in Hm as [->|Hm]; [discriminate Hpair|]).
    by apply not_elem_of_nil in Hm. }
  split; [reflexivity|]. split; [reflexivity|]. split; [reflexivity|].
  split; [reflexivity|]. split; [|reflexivity].
  intros m Hm Hpair. subst ms.
  repeat (apply elem_of_cons in Hm as [->|Hm]; [discriminate Hpair|]).
  by apply not_elem_of_nil in Hm.
Qed.

Lemma enrichment_by_pair_witness :
  exists (ds : list proposalDTO) s',
    List sample.otherwise
         (sample.endpoint [sample.offer 1 "0xP1" "openvpn" time.Minute] None
                          [sample.metric "0xP1" "openvpn" 5])
         sample.with_counts sample.start
    = Some ({| status := StatusOK; payload := proposalsBody (json_array ds) |}, s')
    /\ length ds = 1%nat
    /\ forall (i : nat) (p : market.ServiceProposal),
         [sample.offer 1 "0xP1" "openvpn" time.Minute] !! i = Some p ->
         exists d, ds !! i = Some d
           /\ other_fields_equal (proposalDTO_of sample.otherwise p) d
           /\ ([sample.metric "0xP1" "openvpn" 5] = [] -> Metrics d = None)
           /\ ((forall m, m ∈ [sample.metric "0xP1" "openvpn" 5] ->
                          index_key (metric_pair m) = index_key (dto_pair d) ->
                          metric_pair m = dto_pair d) ->
               ((exists m, m ∈ [sample.metric "0xP1" "openvpn" 5] /\ metric_pair m = dto_pair d) ->
                exists m, find_last (fun m => metric_pair m = dto_pair d)
                                    [sample.metric "0xP1" "openvpn" 5] = Some m
                          /\ Metrics d = Some {| ConnectCount := quality.ConnectCount_of m |})
               /\ ((forall m, m ∈ [sample.metric "0xP1" "openvpn" 5] -> metric_pair m <> dto_pair d) ->
                   Metrics d = None)).
Proof.
  apply (enrichment_by_pair sample.otherwise
           (sample.endpoint [sample.offer 1 "0xP1" "openvpn" time.Minute] None
                            [sample.metric "0xP1" "openvpn" 5])
           sample.with_counts sample.start
           [sample.offer 1 "0xP1" "openvpn" time.Minute] tt tt
           [sample.metric "0xP1" "openvpn" 5]).
  - vm_compute. reflexivity.
  - reflexivity.
  - vm_compute. reflexivity.
  - reflexivity.
Defined.

(** C4, as stated, fails on [upper_time_price_bound=abc]: the answer is a
    400 and the repository is not called at all. *)
Lemma bad_bound_makes_no_repository_call :
  exists (resp : response) s',
    List sample.otherwise (sample.endpoint [] None []) sample.bad_upper_time sample.start
    = Some (resp, s')
    /\ status resp = StatusBadRequest
    /\ length (repository_calls (calls s')) = 0%nat.
Proof. eexists _, _. split; [vm_compute; reflexivity|]. by split. Qed.

Lemma one_repository_call_witness :
  exists (resp : response) s' (new : list call),
    List sample.otherwise (sample.endpoint [] (Some (opaqueError "unavailable")) [])
         sample.with_counts sample.start = Some (resp, s')
    /\ calls s' = calls sample.start ++ new
    /\ repository_calls new = [filter_of sample.with_counts]
    /\ forall ps e w,
         ([] : list market.ServiceProposal, Some (opaqueError "unavailable"), tt) = ((ps, Some e), w) ->
         resp = {| status := StatusInternalServerError; payload := errorBody e |}
         /\ new = [callProposals (filter_of sample.with_counts)]
         /\ metrics_calls new = 0%nat
         /\ heap s' = heap sample.start.
Proof.
  apply (one_repository_call sample.otherwise
           (sample.endpoint [] (Some (opaqueError "unavailable")) [])
           sample.with_counts sample.start).
  vm_compute. reflexivity.
Defined.

(** C5, as stated, fails on [fetch_connect_counts=true] against a
    repository that returns an error: the parameter is the string "true",
    the answer is a 500 and the quality finder is not called. *)
Lemma true_flag_without_enrichment :
  url.Get sample.with_counts "fetch_connect_counts" = "true"
  /\ exists (resp : response) s',
       List sample.otherwise
            (sample.endpoint [] (Some (opaqueError "unavailable")) [sample.metric "0xP1" "openvpn" 5])
            sample.with_counts sample.start
       = Some (resp, s')
       /\ status resp = StatusInternalServerError
       /\ metrics_calls (calls s') = 0%nat.
Proof.
  split; [by vm_compute|]. eexists _, _. split; [vm_compute; reflexivity|]. by split.
Qed.

Lemma proposals_is_an_array_witness :
  exists (ds : list proposalDTO) s',
    List sample.otherwise (sample.endpoint [] None []) ∅ sample.start
    = Some ({| status := StatusOK; payload := proposalsBody (json_array ds) |}, s')
    /\ length ds = 0%nat.
Proof.
  apply (proposals_is_an_array sample.otherwise (sample.endpoint [] None []) ∅ sample.start [] tt).
  - vm_compute. reflexivity.
  - reflexivity.
Defined.

Lemma last_record_wins_witness :
  let d := proposalDTO_of sample.otherwise (sample.offer 1 "0xP1" "openvpn" time.Minute) in
  let s : @state unit := {| world := tt; calls := []; heap := [d] |} in
  let ms := [sample.metric "0xP1" "openvpn" 5; sample.metric "0xP1" "openvpn" 9;
             sample.metric "0xP2" "wireguard" 1] in
  metricsMap_of ms !! "0xP1openvpn" = Some (sample.metric "0xP1" "openvpn" 9)
  /\ exists s' (d' : proposalDTO),
       addProposalMetrics (mk_slice [0%nat]) ms s = Some (tt, s')
       /\ heap s' !! 0%nat = Some d'
       /\ Metrics d'
          = Some {| ConnectCount :=
                      {| quality.Success := 9; quality.Fail := 0; quality.Timeout := 0 |} |}
       /\ ID d' = ID d
       /\ ProviderID d' = ProviderID d
       /\ ServiceType d' = ServiceType d
       /\ ServiceDefinition d' = ServiceDefinition d
       /\ AccessPolicies d' = AccessPolicies d
       /\ PaymentMethod d' = PaymentMethod d.
Proof.
  intros d s ms.
  apply (last_record_wins [sample.metric "0xP1" "openvpn" 5]
           [sample.metric "0xP2" "wireguard" 1] (sample.metric "0xP1" "openvpn" 9)
           (mk_slice [0%nat]) s 0%nat d).
  - constructor; [vm_compute; discriminate|constructor].
  - constructor; [simpl; lia|constructor].
  - simpl. left.
  - reflexivity.
  - reflexivity.
Defined.

(** ** Further properties of the bound parser *)

Section BoundParser.

Import strconv.

Lemma digits_value_ge (s : string) (acc : Z) : 0 <= acc -> acc <= digits_value s acc.
Proof.
  revert acc. induction s as [|c s IH]; intros acc Hacc; simpl; [lia|].
  destruct (is_digit c) eqn:Hc; [|lia].
  unfold is_digit in Hc. apply andb_true_iff in Hc as [H1 H2].
  etransitivity; [|apply IH]; lia.
Qed.

(** The loop of [ParseUint] computes the value of the leading digits, with
    the range error taking precedence over a later syntax error. *)
Lemma parse_loop_value (s0 s : string) (n : Z) :
  0 <= n < 2 ^ 64 ->
  parse_loop 10 (maxUint64 / 10 + 1) s0 s n
  = if 2 ^ 64 <=? digits_value s n then (maxUint64, Some (rangeError fnParseUint s0))
    else if all_digits s then (digits_value s n, None)
         else (0, Some (syntaxError fnParseUint s0)).
Proof.
  revert n. induction s as [|c s IH]; intros n Hn; simpl.
  - by rewrite (proj2 (Z.leb_gt _ _)) by lia.
  - pose proof (digit_value_cases c) as Hc.
    destruct (digit_value (byte_of c)) as [d|].
    2:{ rewrite Hc. simpl. by rewrite (proj2 (Z.leb_gt _ _)) by lia. }
    destruct Hc as [(Hc & -> & Hd)|[Hc Hd]]; rewrite Hc; simpl.
    2:{ rewrite (proj2 (Z.leb_le 10 d)) by done.
        by rewrite (proj2 (Z.leb_gt _ _)) by lia. }
    rewrite (proj2 (Z.leb_gt 10 _)) by lia.
    pose proof (digits_value_ge s (n * 10 + (byte_of c - 48))) as Hge.
    destruct (maxUint64 / 10 + 1 <=? n) eqn:Hcut.
    + apply Z.leb_le in Hcut. rewrite (proj2 (Z.leb_le _ _)); [done|].
      unfold maxUint64 in Hcut. revert Hcut Hge.
      change (2 ^ 64) with 18446744073709551616.
      change ((18446744073709551616 - 1) / 10 + 1) with 1844674407370955162. lia.
    + apply Z.leb_gt in Hcut.
      assert (Hmul : 0 <= n * 10 < 2 ^ 64).
      { unfold maxUint64 in Hcut. revert Hcut.
        change (2 ^ 64) with 18446744073709551616.
        change ((18446744073709551616 - 1) / 10 + 1) with 1844674407370955162. lia. }
      rewrite (Z.mod_small (n * 10)) by done.
      destruct (decide (n * 10 + (byte_of c - 48) < 2 ^ 64)) as [Hfit|Hover].
      * rewrite (Z.mod_small (n * 10 + _)) by lia.
        rewrite (proj2 (Z.ltb_ge _ _)) by lia.
        rewrite (proj2 (Z.ltb_ge _ _)) by (unfold maxUint64; lia).
        simpl. apply IH. lia.
      * assert (Hwrap : (n * 10 + (byte_of c - 48)) mod 2 ^ 64
                        = n * 10 + (byte_of c - 48) - 2 ^ 64).
        { symmetry. apply Z.mod_unique with 1; lia. }
        rewrite Hwrap. rewrite (proj2 (Z.ltb_lt _ _)) by lia. simpl.
        rewrite (proj2 (Z.leb_le _ _)); [done|lia].
Qed.

(** The bound parser agrees with the reading of the text. *)
Lemma parsePriceBound_as_text (req : url.Values) (key : string) :
  parsePriceBound req key = bound_of_text (url.Get req key).
Proof.
  unfold parsePriceBound, bound_of_text. case_decide as Hempty; [done|].
  destruct (url.Get req key) as [|c x] eqn:Hget; [done|].
  unfold ParseUint10. rewrite parse_loop_value by done.
  destruct (2 ^ 64 <=? _); [done|]. by destruct (all_digits _).
Qed.

(** X1. [parsePriceBound] is the reading of the parameter's first value
    as a bound: nothing for the empty text, the number for a text of
    decimal digits below [2^64] (leading zeros allowed), the largest
    uint64 with a range error once the leading digits reach [2^64], and
    zero with a syntax error otherwise; an error always comes with a bound
    that is not [nil]. *)
Theorem parsePriceBound_reads_text (req : url.Values) (key : string) :
  parsePriceBound req key = bound_of_text (url.Get req key)
  /\ (is_Some (parsePriceBound req key).2 -> is_Some (parsePriceBound req key).1).
Proof.
  split; [apply parsePriceBound_as_text|].
  rewrite parsePriceBound_as_text. unfold bound_of_text.
  case_decide; [by intros [? ?]|].
  destruct (2 ^ 64 <=? _); [by eexists|]. destruct (all_digits _); by eexists.
Qed.

(** The reading on sample texts. *)
Lemma bound_of_text_samples :
  bound_of_text "" = (None, None)
  /\ bound_of_text "0" = (Some 0, None)
  /\ bound_of_text "0042" = (Some 42, None)
  /\ bound_of_text "18446744073709551615" = (Some (2 ^ 64 - 1), None)
  /\ bound_of_text "18446744073709551616"
     = (Some (2 ^ 64 - 1), Some (ofNumError (rangeError "ParseUint" "18446744073709551616")))
  /\ bound_of_text "99999999999999999999x"
     = (Some (2 ^ 64 - 1), Some (ofNumError (rangeError "ParseUint" "99999999999999999999x")))
  /\ bound_of_text "12x" = (Some 0, Some (ofNumError (syntaxError "ParseUint" "12x")))
  /\ bound_of_text "-1" = (Some 0, Some (ofNumError (syntaxError "ParseUint" "-1")))
  /\ bound_of_text " 1" = (Some 0, Some (ofNumError (syntaxError "ParseUint" " 1"))).
Proof. repeat split; by vm_compute. Qed.

End BoundParser.

(** ** Further properties of the quality correlator *)

Section CorrelatorFrame.

Context {W : Type}.

Implicit Types (s : @state W) (h : list proposalDTO) (d : proposalDTO).
Implicit Types (mm : gmap string quality.ConnectMetric) (ps : list ptr).

Lemma find_last_app {A} (P : A -> Prop) `{!forall x, Decision (P x)} (l1 l2 : list A) :
  find_last P (l1 ++ l2)
  = match find_last P l2 with Some x => Some x | None => find_last P l1 end.
Proof.
  induction l2 as [|x l2 IH] using rev_ind.
  - by rewrite app_nil_r.
  - rewrite app_assoc, !find_last_snoc, IH. by case_decide.
Qed.

(** One turn of the second loop on an allocated pointer. *)
Lemma attach_metrics_cons mm (p : ptr) ps s :
  (p < length (heap s))%nat ->
  attach_metrics mm (p :: ps) s
  = attach_metrics mm ps (with_heap s (alter (enrich mm) p (heap s))).
Proof.
  intros Hp. destruct (lookup_lt_is_Some_2 _ _ Hp) as [d Hd].
  cbn [attach_metrics]. unfold bind at 1, load. rewrite Hd.
  cbv beta iota. unfold bind at 1.
  change (ProviderID d +:+ ServiceType d) with (index_key (dto_pair d)).
  assert (Halter : alter (enrich mm) p (heap s) = <[p := enrich mm d]> (heap s)).
  { apply list_eq. intros j. destruct (decide (p = j)) as [->|].
    - by rewrite list_lookup_insert_eq, list_lookup_alter_eq, Hd.
    - by rewrite list_lookup_insert_ne, list_lookup_alter_ne. }
  rewrite Halter. unfold enrich.
  destruct (mm !! index_key (dto_pair d)) as [mc|].
  - unfold store. by rewrite Hd.
  - unfold ret. rewrite list_insert_id by done. by rewrite with_heap_same.
Qed.

(** The second loop panics exactly when it meets a pointer outside the
    heap. *)
Lemma attach_metrics_outcome mm ps s :
  attach_metrics mm ps s
  = if decide (Forall (fun p => (p < length (heap s))%nat) ps)
    then Some (tt, with_heap s (visit mm (heap s) ps))
    else None.
Proof.
  case_decide as Hvalid; [by apply attach_metrics_run|].
  revert s Hvalid. induction ps as [|p ps IH]; intros s Hvalid.
  - by destruct Hvalid.
  - destruct (decide (p < length (heap s))%nat) as [Hp|Hp].
    + rewrite attach_metrics_cons by done. apply IH.
      cbn [heap with_heap]. rewrite length_alter.
      intros Hps. apply Hvalid. by constructor.
    + apply attach_metrics_nil. apply lookup_ge_None. lia.
Qed.

Lemma visit_visit mm ps h : visit mm (visit mm h ps) ps = visit mm h ps.
Proof.
  apply list_eq. intros i. rewrite !visit_lookup.
  case_decide; [|done]. destruct (h !! i); simpl; [|done]. by rewrite enrich_idemp.
Qed.

(** X2. When [addProposalMetrics] returns, it has touched nothing but the
    metrics of the DTOs its slice points to: the collaborators' world, the
    log and the size of the heap are as before, no DTO changes in any
    other field, a DTO the slice does not point to is unchanged, and so is
    a DTO under whose key the index holds no record, metrics included. *)
Theorem addProposalMetrics_frame (proposals : slice ptr)
        (metrics : list quality.ConnectMetric) s s' :
  addProposalMetrics proposals metrics s = Some (tt, s') ->
  world s' = world s /\ calls s' = calls s
  /\ length (heap s') = length (heap s)
  /\ forall (i : nat) d,
       heap s !! i = Some d ->
       exists d', heap s' !! i = Some d'
         /\ ID d' = ID d
         /\ ProviderID d' = ProviderID d
         /\ ServiceType d' = ServiceType d
         /\ ServiceDefinition d' = ServiceDefinition d
         /\ AccessPolicies d' = AccessPolicies d
         /\ PaymentMethod d' = PaymentMethod d
         /\ (i ∉ elems proposals -> d' = d)
         /\ (metricsMap_of metrics !! index_key (dto_pair d) = None -> d' = d).
Proof.
  unfold addProposalMetrics. rewrite attach_metrics_outcome.
  case_decide; [|done]. intros [= <-]. cbn [world calls heap with_heap].
  split; [done|]. split; [done|]. split; [apply visit_length|].
  intros i d Hd. rewrite visit_lookup, Hd. case_decide as Hin; simpl.
  - eexists. split; [done|].
    destruct (enrich_other_fields (metricsMap_of metrics) d) as (? & ? & ? & ? & ? & ?).
    do 6 (split; [done|]). split; [done|].
    intros Hnone. unfold enrich. by rewrite Hnone.
  - by exists d.
Qed.

(** X3. Running [addProposalMetrics] a second time with the same records
    changes nothing. *)
Theorem addProposalMetrics_idempotent (proposals : slice ptr)
        (metrics : list quality.ConnectMetric) s s' :
  addProposalMetrics proposals metrics s = Some (tt, s') ->
  addProposalMetrics proposals metrics s' = Some (tt, s').
Proof.
  unfold addProposalMetrics. rewrite !attach_metrics_outcome.
  case_decide as Hvalid; [|done]. intros [= <-]. cbn [heap with_heap].
  rewrite decide_True by by rewrite visit_length.
  unfold with_heap. cbn [world calls]. by rewrite visit_visit.
Qed.


(** X5. [addProposalMetrics] panics exactly when its slice holds a [nil]
    pointer; otherwise it returns. *)
Theorem addProposalMetrics_panics_on_nil (proposals : slice ptr)
        (metrics : list quality.ConnectMetric) s :
  addProposalMetrics proposals metrics s = None
  <-> exists q : ptr, q ∈ elems proposals /\ heap s !! q = None.
Proof.
  unfold addProposalMetrics. rewrite attach_metrics_outcome.
  case_decide as Hvalid.
  - split; [done|]. intros (q & Hq & Hnone).
    rewrite Forall_forall in Hvalid. apply lookup_ge_None in Hnone.
    specialize (Hvalid q Hq). lia.
  - split; [|done]. intros _.
    apply not_Forall_Exists in Hvalid; [|intros q; apply _].
    apply Exists_exists in Hvalid as (q & Hq & Hge).
    exists q. split; [done|]. apply lookup_ge_None. simpl in Hge. lia.
Qed.

(** X6. A metric record whose key is the key of none of the DTOs the slice
    points to has no effect: the outcome is the same with and without it,
    wherever it stands in the list. *)
Theorem unmatched_record_is_ignored (proposals : slice ptr)
        (ms1 ms2 : list quality.ConnectMetric) (m : quality.ConnectMetric) s :
  (forall (q : ptr) d, q ∈ elems proposals -> heap s !! q = Some d ->
                       index_key (dto_pair d) <> index_key (metric_pair m)) ->
  addProposalMetrics proposals (ms1 ++ m :: ms2) s
  = addProposalMetrics proposals (ms1 ++ ms2) s.
Proof.
  intros Hunmatched. unfold addProposalMetrics. rewrite !attach_metrics_outcome.
  case_decide; [|done]. do 3 f_equal.
  apply list_eq. intros i. rewrite !visit_lookup.
  case_decide as Hin; [|done].
  destruct (heap s !! i) as [d|] eqn:Hd; [|done]. simpl. f_equal.
  unfold enrich. rewrite !metricsMap_of_lookup, !find_last_app.
  change (m :: ms2) with ([m] ++ ms2). rewrite find_last_app.
  destruct (find_last _ ms2); [done|].
  unfold find_last at 1. simpl. rewrite decide_False; [done|].
  intros Heq. by apply (Hunmatched i d).
Qed.

End CorrelatorFrame.

(** ** Further properties of the handler *)

Section HandlerOutcome.

Context {W : Type}.
Variable uint64_otherwise : float -> Z.
Variable pe : proposalsEndpoint W.

Implicit Types (s : @state W) (req : url.Values) (key : string).

Local Abbreviation List := (List uint64_otherwise pe).
Local Abbreviation proposalDTO_of := (proposalDTO_of uint64_otherwise).
Local Abbreviation repository := (@proposal.Proposals W (proposalRepository pe)).
Local Abbreviation finder := (@ProposalsMetrics W (qualityProvider pe)).

(** No bound fails exactly when every bound parameter is empty or a
    decimal numeral below [2^64]. *)
Lemma failing_bound_None_text req :
  failing_bound req = None <->
  forall key, key ∈ bound_keys ->
              url.Get req key = "" \/ parses_as_uint64 (url.Get req key).
Proof.
  rewrite failing_bound_None. split; intros Hall key Hkey; specialize (Hall key Hkey).
  - destruct (decide (url.Get req key = "")) as [|Hne]; [by left|]. right.
    unfold parsePriceBound in Hall. rewrite decide_False in Hall by done.
    destruct (strconv.ParseUint10 (url.Get req key)) as [v [e|]] eqn:Hp; [done|].
    apply ParseUint10_accepts in Hp as (? & ? & ?). split; [done|]. by exists v.
  - destruct (parsePriceBound req key).2 as [e|] eqn:He; [|done]. exfalso.
    assert (is_Some (parsePriceBound req key).2) as Hsome by by eexists.
    apply parsePriceBound_error in Hsome as [Hne Hbad]. by destruct Hall.
Qed.

(** The shape of every run of [List]. *)
Lemma List_cases req s :
  (exists key e, failing_bound req = Some key
      /\ List req s = Some ({| status := StatusBadRequest; payload := errorBody e |}, s))
  \/ (exists ps e w, failing_bound req = None
        /\ repository (filter_of req) (world s) = ((ps, Some e), w)
        /\ List req s
           = Some ({| status := StatusInternalServerError; payload := errorBody e |},
                   {| world := w; calls := calls s ++ [callProposals (filter_of req)];
                      heap := heap s |}))
  \/ (exists ps w, failing_bound req = None
        /\ repository (filter_of req) (world s) = ((ps, None), w)
        /\ url.Get req "fetch_connect_counts" <> "true"
        /\ List req s
           = Some ({| status := StatusOK;
                      payload := proposalsBody (json_array (map proposalDTO_of ps)) |},
                   {| world := w; calls := calls s ++ [callProposals (filter_of req)];
                      heap := heap s ++ map proposalDTO_of ps |}))
  \/ (exists ps w ms w', failing_bound req = None
        /\ repository (filter_of req) (world s) = ((ps, None), w)
        /\ url.Get req "fetch_connect_counts" = "true"
        /\ finder w = (ms, w')
        /\ List req s
           = Some ({| status := StatusOK;
                      payload := proposalsBody
                                   (json_array (map (enrich (metricsMap_of ms))
                                                    (map proposalDTO_of ps))) |},
                   {| world := w';
                      calls := calls s ++ [callProposals (filter_of req); callProposalsMetrics];
                      heap := heap s ++ map (enrich (metricsMap_of ms)) (map proposalDTO_of ps) |})).
Proof.
  destruct (failing_bound req) as [key|] eqn:Hfail.
  - left. destruct (List_bound_error uint64_otherwise pe req s key Hfail) as (e & _ & Hrun).
    by exists key, e.
  - right. destruct (repository (filter_of req) (world s)) as [[ps [e|]] w] eqn:Hrepo.
    + left. exists ps, e, w. repeat split. by eapply List_repository_error.
    + right. destruct (decide (url.Get req "fetch_connect_counts" = "true")) as [Hflag|Hflag].
      * right. destruct (finder w) as [ms w'] eqn:Hfind.
        exists ps, w, ms, w'. repeat split; try done. by eapply List_enriched.
      * left. exists ps, w. repeat split; try done. by eapply List_plain.
Qed.

(** X7. The status of the answer tells the outcome: it is 400 exactly when
    some bound parameter is not empty and not a decimal numeral below
    [2^64]; 500 exactly when the bounds parse and the repository returns
    an error; 200 exactly when the bounds parse and the repository
    succeeds; and the answer carries a proposals array exactly when the
    status is 200, an error otherwise. *)
Theorem status_tells_the_outcome req s :
  exists (resp : response) s',
    List req s = Some (resp, s')
    /\ (status resp = StatusBadRequest <->
        exists key, key ∈ bound_keys /\ url.Get req key <> ""
                    /\ ~ parses_as_uint64 (url.Get req key))
    /\ (status resp = StatusInternalServerError <->
        failing_bound req = None
        /\ is_Some (repository (filter_of req) (world s)).1.2)
    /\ (status resp = StatusOK <->
        failing_bound req = None
        /\ (repository (filter_of req) (world s)).1.2 = None)
    /\ (status resp = StatusOK <->
        exists ds, payload resp = proposalsBody (json_array ds))
    /\ (status resp <> StatusOK <-> exists e, payload resp = errorBody e).
Proof.
  assert (Hbad : (exists key, key ∈ bound_keys /\ url.Get req key <> ""
                              /\ ~ parses_as_uint64 (url.Get req key))
                 <-> failing_bound req <> None).
  { split.
    - intros (key & Hkey & Hne & Hno) Hnone.
      rewrite failing_bound_None_text in Hnone. by destruct (Hnone key Hkey).
    - intros Hsome. destruct (failing_bound req) as [key|] eqn:Hfail; [|done].
      apply failing_bound_Some in Hfail as [Hkey He].
      apply parsePriceBound_error in He. by exists key. }
  destruct (List_cases req s)
    as [(key & e & Hf & Hrun)
       |[(ps & e & w & Hf & Hrepo & Hrun)
        |[(ps & w & Hf & Hrepo & Hflag & Hrun)
         |(ps & w & ms & w' & Hf & Hrepo & Hflag & Hfind & Hrun)]]];
    eexists _, _; (split; [exact Hrun|]); rewrite Hbad, Hf, ?Hrepo; cbn [status payload fst snd];
    unfold StatusBadRequest, StatusInternalServerError, StatusOK;
    repeat split; try done; try (intros [? ?]; done); try (by intros [? [? ?]]);
    try (by eexists).
Qed.

(** The bound parser, the first failing bound and the filter read the
    request through [Get] only. *)
Lemma parsePriceBound_ext req req' key :
  url.Get req' key = url.Get req key -> parsePriceBound req' key = parsePriceBound req key.
Proof. intros Hget. unfold parsePriceBound. by rewrite Hget. Qed.

Lemma request_ext req req' :
  (forall key, key <> "fetch_connect_counts" -> url.Get req' key = url.Get req key) ->
  failing_bound req' = failing_bound req /\ filter_of req' = filter_of req.
Proof.
  intros Hsame. unfold failing_bound, filter_of, bound_keys. cbn [list_find].
  rewrite !(parsePriceBound_ext req req') by by apply Hsame.
  by rewrite !Hsame by done.
Qed.

Lemma Forall2_other_fields_equal (f g : proposalDTO -> proposalDTO) (l : list proposalDTO) :
  (forall d, other_fields_equal (f d) (g d)) ->
  Forall2 other_fields_equal (map f l) (map g l).
Proof. intros Hfg. induction l as [|d l IH]; simpl; by constructor. Qed.

(** X8. Once the bounds parse, the one filter handed to the repository
    follows the parameters: the four text fields are the parameters'
    values as they are, and each price bound is absent when its parameter
    is empty and is the parameter's decimal value otherwise, upper and
    lower, time and GB each from its own parameter. *)
Theorem filter_follows_parameters req s :
  failing_bound req = None ->
  exists (resp : response) s' (new : list call) (f : proposal.Filter),
    List req s = Some (resp, s')
    /\ calls s' = calls s ++ new
    /\ repository_calls new = [f]
    /\ proposal.ProviderID f = url.Get req "provider_id"
    /\ proposal.ServiceType f = url.Get req "service_type"
    /\ proposal.AccessPolicyID f = url.Get req "access_policy_id"
    /\ proposal.AccessPolicySource f = url.Get req "access_policy_source"
    /\ bound_of_text (url.Get req "upper_time_price_bound")
       = (proposal.UpperTimePriceBound f, None)
    /\ bound_of_text (url.Get req "lower_time_price_bound")
       = (proposal.LowerTimePriceBound f, None)
    /\ bound_of_text (url.Get req "upper_gb_price_bound")
       = (proposal.UpperGBPriceBound f, None)
    /\ bound_of_text (url.Get req "lower_gb_price_bound")
       = (proposal.LowerGBPriceBound f, None).
Proof.
  intros Hok.
  destruct (List_answers uint64_otherwise pe req s Hok) as (resp & s' & new & Hrun & Hcalls & Hrep).
  exists resp, s', new, (filter_of req).
  rewrite failing_bound_None in Hok.
  assert (Hb : forall key, key ∈ bound_keys ->
                 bound_of_text (url.Get req key) = ((parsePriceBound req key).1, None)).
  { intros key Hkey. rewrite <- parsePriceBound_as_text.
    specialize (Hok key Hkey). by destruct (parsePriceBound req key) as [b e]; simpl in *; subst. }
  repeat split; try done; apply Hb; unfold bound_keys; set_solver.
Qed.

(** X9. The parameter [fetch_connect_counts] changes nothing but the
    metrics: two requests that agree on every other parameter get the
    same status, the same error or the same proposals up to their metrics
    fields, and make the same call on the repository. *)
Theorem flag_changes_metrics_only req req' s :
  (forall key, key <> "fetch_connect_counts" -> url.Get req' key = url.Get req key) ->
  exists (resp resp' : response) s1 s2,
    List req s = Some (resp, s1)
    /\ List req' s = Some (resp', s2)
    /\ same_but_metrics resp resp'
    /\ repository_calls (calls s1) = repository_calls (calls s2).
Proof.
  intros Hsame. destruct (request_ext req req' Hsame) as [Hfail Hfilter].
  destruct (List_cases req s)
    as [(key & e & Hf & Hrun)
       |[(ps & e & w1 & Hf & Hrepo & Hrun)
        |[(ps & w1 & Hf & Hrepo & Hflag & Hrun)
         |(ps & w1 & ms & w' & Hf & Hrepo & Hflag & Hfind & Hrun)]]];
    destruct (List_cases req' s)
    as [(key' & e' & Hf' & Hrun')
       |[(ps' & e' & w1' & Hf' & Hrepo' & Hrun')
        |[(ps' & w1' & Hf' & Hrepo' & Hflag' & Hrun')
         |(ps' & w1' & ms' & w'' & Hf' & Hrepo' & Hflag' & Hfind' & Hrun')]]];
    rewrite Hfail, ?Hfilter in *; try congruence;
    eexists _, _, _, _; (split; [exact Hrun|]); (split; [exact Hrun'|]).
  - split; [|done]. split; [done|]. simpl.
    destruct (List_bound_error uint64_otherwise pe req s key Hf) as (e1 & He1 & Hrun1).
    destruct (List_bound_error uint64_otherwise pe req' s key') as (e2 & He2 & Hrun2);
      [by rewrite Hfail|].
    assert (key' = key) as -> by congruence.
    rewrite (parsePriceBound_ext req req') in He2
      by (apply Hsame; intros ->; apply failing_bound_Some in Hf as [Hin _];
          unfold bound_keys in Hin;
          repeat (apply elem_of_cons in Hin as [Hin|Hin]; [discriminate Hin|]);
          by apply not_elem_of_nil in Hin).
    congruence.
  - split; [|done]. split; [done|]. simpl. congruence.
  - assert (ps' = ps) as -> by congruence.
    split; [|done]. split; [done|]. simpl.
    rewrite <- (map_id (map proposalDTO_of ps)).
    apply Forall2_other_fields_equal. intros d. by repeat split.
  - assert (ps' = ps) as -> by congruence.
    split; [|unfold repository_calls; cbn [calls]; by rewrite !omap_app]. split; [done|]. simpl.
    rewrite <- (map_id (map proposalDTO_of ps)) at 1.
    apply Forall2_other_fields_equal. intros d. apply enrich_other_fields.
  - assert (ps' = ps) as -> by congruence.
    split; [|unfold repository_calls; cbn [calls]; by rewrite !omap_app]. split; [done|]. simpl.
    rewrite <- (map_id (map proposalDTO_of ps)) at 2.
    apply Forall2_other_fields_equal. intros d.
    destruct (enrich_other_fields (metricsMap_of ms) d) as (? & ? & ? & ? & ? & ?).
    by repeat split.
  - assert (ps' = ps) as -> by congruence.
    split; [|done]. split; [done|]. simpl.
    apply Forall2_other_fields_equal. intros d. apply enrich_enrich_other_fields.
Qed.

(** X10. In every answer, two proposals with the same index key carry the
    same metrics, or both none. *)
Theorem equal_keys_equal_metrics req s (resp : response) s' (ds : list proposalDTO)
        (d1 d2 : proposalDTO) :
  List req s = Some (resp, s') ->
  payload resp = proposalsBody (json_array ds) ->
  d1 ∈ ds -> d2 ∈ ds ->
  index_key (dto_pair d1) = index_key (dto_pair d2) ->
  Metrics d1 = Metrics d2.
Proof.
  intros Hrun Hpay H1 H2 Hkey.
  destruct (List_cases req s)
    as [(key & e & Hf & Hrun')
       |[(ps & e & w1 & Hf & Hrepo & Hrun')
        |[(ps & w1 & Hf & Hrepo & Hflag & Hrun')
         |(ps & w1 & ms & w' & Hf & Hrepo & Hflag & Hfind & Hrun')]]];
    rewrite Hrun' in Hrun; injection Hrun as <- <-; simpl in Hpay; try done;
    injection Hpay as <-.
  - apply list_elem_of_fmap in H1 as (p1 & -> & _).
    by apply list_elem_of_fmap in H2 as (p2 & -> & _).
  - apply list_elem_of_fmap in H1 as (e1 & -> & H1).
    apply list_elem_of_fmap in H2 as (e2 & -> & H2).
    apply list_elem_of_fmap in H1 as (p1 & -> & _).
    apply list_elem_of_fmap in H2 as (p2 & -> & _).
    rewrite !enrich_pair in Hkey. unfold enrich. rewrite Hkey.
    by destruct (metricsMap_of ms !! _).
Qed.

End HandlerOutcome.

(** ** The seconds of a rate of whole seconds *)

Section WholeSeconds.

Lemma digits2_pos_size (p : positive) : digits2_pos p = Pos.size p.
Proof. induction p; simpl; congruence. Qed.

Lemma digits2_pos_shift (p d : positive) :
  digits2_pos (Pos.iter xO p d) = (digits2_pos p + d)%positive.
Proof.
  induction d as [|d IH] using Pos.peano_ind.
  - simpl. lia.
  - rewrite Pos.iter_succ. simpl. rewrite IH. lia.
Qed.

Lemma Zpos_shift (p d : positive) : Z.pos (Pos.iter xO p d) = Z.pos p * 2 ^ Z.pos d.
Proof.
  induction d as [|d IH] using Pos.peano_ind.
  - simpl. lia.
  - rewrite Pos.iter_succ, Pos2Z.inj_xO, IH, Pos2Z.inj_succ, Z.pow_succ_r by lia. lia.
Qed.

Lemma size_bounds (p : positive) :
  2 ^ (Z.pos (Pos.size p) - 1) <= Z.pos p < 2 ^ Z.pos (Pos.size p).
Proof.
  induction p as [p IH|p IH|]; simpl Pos.size; [| |simpl; lia].
  all: rewrite Pos2Z.inj_succ;
    replace (Z.succ (Z.pos (Pos.size p)) - 1) with (Z.succ (Z.pos (Pos.size p) - 1)) by lia;
    rewrite !Z.pow_succ_r by lia;
    revert IH; generalize (2 ^ (Z.pos (Pos.size p) - 1)) (2 ^ Z.pos (Pos.size p));
    intros a b IH; lia.
Qed.

Lemma size_small (p : positive) : Z.pos p < 2 ^ 53 -> 1 <= Z.pos (Pos.size p) <= 53.
Proof.
  intros Hp. pose proof (size_bounds p) as [Hlo Hhi].
  split; [lia|]. destruct (decide (Z.pos (Pos.size p) <= 53)) as [|Hgt]; [done|].
  exfalso.
  assert (2 ^ 53 <= 2 ^ (Z.pos (Pos.size p) - 1)) by (apply Z.pow_le_mono_r; lia). lia.
Qed.

(** A mantissa of 53 bits with an exponent in range is a binary64 as it
    stands: rounding leaves it alone. *)
Lemma binary_round_aux_exact (m : positive) (e : Z) :
  Z.pos (digits2_pos m) = 53 -> -1074 <= e <= 971 ->
  binary_round_aux prec emax false (Z.pos m) e loc_Exact = S754_finite false m e.
Proof.
  intros Hm He.
  assert (Hshr : shr_fexp prec emax (Z.pos m) e loc_Exact
                 = ({| shr_m := Z.pos m; shr_r := false; shr_s := false |}, e)).
  { unfold shr_fexp. cbn [Zdigits2]. rewrite Hm.
    unfold fexp, emin, prec, emax.
    replace (Z.max (53 + e - 53) (3 - 1024 - 53) - e) with 0 by lia. reflexivity. }
  unfold binary_round_aux. rewrite Hshr.
  cbn [shr_m loc_of_shr_record round_nearest_even]. rewrite Hshr. cbn [shr_m].
  unfold prec, emax. by rewrite (proj2 (Z.leb_le _ _)) by lia.
Qed.

Lemma shl_align_small (p : positive) :
  Z.pos p < 2 ^ 53 ->
  exists m, shl_align p 0 (Z.pos (Pos.size p) - 53) = (m, Z.pos (Pos.size p) - 53)
            /\ Z.pos (digits2_pos m) = 53
            /\ Z.pos m = Z.pos p * 2 ^ (53 - Z.pos (Pos.size p)).
Proof.
  intros Hp. pose proof (size_small p Hp) as Hk.
  unfold shl_align.
  destruct (Z.pos (Pos.size p) - 53 - 0) as [|q|d] eqn:Hd; try lia.
  - exists p. assert (Z.pos (Pos.size p) = 53) as Hk53 by lia. rewrite Hk53.
    split; [done|]. rewrite digits2_pos_size. split; [done|]. simpl. lia.
  - exists (Pos.iter xO p d). split; [done|].
    rewrite digits2_pos_shift, digits2_pos_size, Pos2Z.inj_add.
    split; [lia|]. rewrite Zpos_shift. f_equal. f_equal. lia.
Qed.

(** A natural number below [2^53] is converted to binary64 without
    rounding. *)
Lemma binary_round_small (p : positive) :
  Z.pos p < 2 ^ 53 ->
  exists m e, binary_round prec emax false p 0 = S754_finite false m e
              /\ -53 < e <= 0 /\ Z.pos m = Z.pos p * 2 ^ (- e).
Proof.
  intros Hp. destruct (shl_align_small p Hp) as (m & Hal & Hm & Hval).
  pose proof (size_small p Hp) as Hk.
  unfold binary_round. rewrite digits2_pos_size. unfold fexp, emin, prec, emax.
  rewrite Z.add_0_r. rewrite Z.max_l by lia. rewrite Hal.
  rewrite binary_round_aux_exact by (done || lia).
  exists m, (Z.pos (Pos.size p) - 53). split; [done|]. split; [lia|].
  rewrite Hval. f_equal. f_equal. lia.
Qed.

(** [Seconds] of a whole number of seconds is that number, as a binary64
    whose integer part is the number. *)
Lemma Seconds_whole (n : Z) :
  0 <= n < 2 ^ 53 -> conv.truncate (time.Seconds (n * time.Second)) = Some n.
Proof.
  intros Hn. unfold time.Seconds.
  rewrite Z.quot_mul, Z.rem_mul by done.
  assert (Hz : Prim2SF (PrimFloat.div (time.float64_of_int 0)
                                      (time.float64_of_int 1000000000))
               = S754_zero false) by (vm_compute; reflexivity).
  unfold conv.truncate. rewrite add_spec, Hz.
  unfold time.float64_of_int. rewrite (proj2 (Z.ltb_ge _ _)) by lia.
  rewrite of_uint63_spec, Uint63.of_Z_spec.
  rewrite Z.mod_small
    by (change Uint63.wB with 9223372036854775808;
        change (2 ^ 53) with 9007199254740992 in Hn; lia).
  destruct n as [|p|p]; [done| |lia].
  cbn [binary_normalize].
  destruct (binary_round_small p) as (m & e & -> & He & Hm); [lia|].
  cbn. f_equal.
  destruct (0 <=? e) eqn:He0.
  - apply Z.leb_le in He0. assert (e = 0) as -> by lia. simpl in Hm. lia.
  - rewrite Hm. apply Z.div_mul. apply Z.pow_nonzero; lia.
Qed.

(** X11. A duration-based rate of a whole number of seconds, from zero to
    the largest a [time.Duration] holds, is projected to exactly that
    number of seconds: the passage through binary64 loses nothing. *)
Theorem whole_seconds_are_exact (otherwise : float -> Z)
        (p : market.ServiceProposal) (n : Z) :
  0 <= n <= 9223372036 ->
  market.PerTime (market.GetRate (market.SP_PaymentMethod p)) = n * time.Second ->
  PerSeconds (Rate (PaymentMethod (proposalDTO_of otherwise p))) = n.
Proof.
  intros Hn Hrate. unfold proposalDTO_of. cbn [PerSeconds Rate PaymentMethod].
  rewrite Hrate. unfold conv.uint64_of_float64.
  rewrite Seconds_whole by lia.
  by rewrite (proj2 (Z.leb_le _ _)), (proj2 (Z.ltb_lt _ _)) by lia.
Qed.

End WholeSeconds.

(** ** The seconds of a rate below [2^24] seconds *)

Section FractionalSeconds.

Lemma div_pow2_div_pow2 (m j k : Z) : 0 <= j -> 0 <= k -> m / 2 ^ j / 2 ^ k = m / 2 ^ (j + k).
Proof.
  intros Hj Hk. rewrite Z.pow_add_r by done.
  rewrite Z.div_div; [done|apply Z.pow_nonzero; lia|apply Z.pow_pos_nonneg; lia].
Qed.

Lemma shr_1_spec (mrs : shr_record) :
  0 <= shr_m mrs ->
  shr_m (shr_1 mrs) = shr_m mrs / 2 ^ 1
  /\ shr_r (shr_1 mrs) = Z.testbit (shr_m mrs) 0.
Proof.
  destruct mrs as [m r s]. simpl shr_m. intros Hm.
  change (2 ^ 1) with 2.
  destruct m as [|[p|p|]|]; try lia; simpl shr_1; cbn [shr_m shr_r].
  - done.
  - split; [|done]. rewrite Pos2Z.inj_xI. apply Z.div_unique with 1; lia.
  - split; [|done]. rewrite Pos2Z.inj_xO. apply Z.div_unique with 0; lia.
  - done.
Qed.

Lemma iter_shr_1_spec (p : positive) (mrs : shr_record) :
  0 <= shr_m mrs ->
  shr_m (SpecFloat.iter_pos shr_1 p mrs) = shr_m mrs / 2 ^ Z.pos p
  /\ shr_r (SpecFloat.iter_pos shr_1 p mrs) = Z.testbit (shr_m mrs) (Z.pos p - 1).
Proof.
  assert (Hnn : forall a k, 0 <= a -> 0 <= k -> 0 <= a / 2 ^ k).
  { intros a k Ha Hk. apply Z.div_pos; [done|]. apply Z.pow_pos_nonneg; lia. }
  revert mrs. induction p as [p IH|p IH|]; intros mrs Hm; cbn [SpecFloat.iter_pos].
  - destruct (shr_1_spec mrs Hm) as [Ha Hra].
    destruct (IH (shr_1 mrs)) as [Hb Hrb]; [rewrite Ha; by apply Hnn|].
    destruct (IH (SpecFloat.iter_pos shr_1 p (shr_1 mrs))) as [Hc Hrc];
      [rewrite Hb, Ha; apply Hnn; [by apply Hnn|done]|].
    rewrite Hc, Hrc, Hb, Ha. rewrite !div_pow2_div_pow2 by lia. split.
    + f_equal. f_equal. lia.
    + rewrite Z.div_pow2_bits by lia. f_equal. lia.
  - destruct (IH mrs Hm) as [Hb Hrb].
    destruct (IH (SpecFloat.iter_pos shr_1 p mrs)) as [Hc Hrc]; [rewrite Hb; by apply Hnn|].
    rewrite Hc, Hrc, Hb. rewrite !div_pow2_div_pow2 by lia. split.
    + f_equal. f_equal. lia.
    + rewrite Z.div_pow2_bits by lia. f_equal. lia.
  - apply shr_1_spec. done.
Qed.

(** [shr]: the mantissa divided by [2^n], the exponent raised by [n], and
    the last bit shifted out as the rounding bit. *)
Lemma shr_spec (mrs : shr_record) (e n : Z) :
  0 <= shr_m mrs -> 0 <= n ->
  (shr mrs e n).2 = e + n
  /\ shr_m (shr mrs e n).1 = shr_m mrs / 2 ^ n
  /\ (0 < n -> shr_r (shr mrs e n).1 = Z.testbit (shr_m mrs) (n - 1))
  /\ (n = 0 -> (shr mrs e n).1 = mrs).
Proof.
  intros Hm Hn. destruct n as [|p|p]; try lia; cbn [shr fst snd].
  - split; [lia|]. split; [by rewrite Z.div_1_r|]. split; [lia|done].
  - destruct (iter_shr_1_spec p mrs Hm) as [H1 H2]. split; [done|]. split; [done|].
    split; [done|lia].
Qed.

Lemma digits_of_bounds (m : positive) (k : Z) :
  2 ^ (k - 1) <= Z.pos m < 2 ^ k -> Z.pos (digits2_pos m) = k.
Proof.
  intros [Hlo Hhi]. rewrite digits2_pos_size.
  pose proof (size_bounds m) as [Slo Shi].
  destruct (Z.lt_trichotomy (Z.pos (Pos.size m)) k) as [Hlt|[Heq|Hgt]]; [|done|].
  - exfalso. assert (2 ^ Z.pos (Pos.size m) <= 2 ^ (k - 1)) by (apply Z.pow_le_mono_r; lia). lia.
  - exfalso. assert (0 <= k).
    { destruct (decide (0 <= k)) as [|Hneg]; [done|].
      rewrite Z.pow_neg_r in Hhi by lia. lia. }
    assert (2 ^ k <= 2 ^ (Z.pos (Pos.size m) - 1)) by (apply Z.pow_le_mono_r; lia). lia.
Qed.

Lemma shr_m_of_loc (m : Z) (l : location) : shr_m (shr_record_of_loc m l) = m.
Proof. by destruct l as [|[]]. Qed.

Lemma round_nearest_even_bounds (mrs : shr_record) :
  shr_m mrs <= round_nearest_even (shr_m mrs) (loc_of_shr_record mrs)
  <= shr_m mrs + Z.b2z (shr_r mrs).
Proof.
  destruct mrs as [m [] []]; simpl; try lia. destruct (Z.even m); lia.
Qed.

Lemma fexp_normal (x : Z) : -1074 <= x - 53 -> fexp prec emax x = x - 53.
Proof. intros Hx. unfold fexp, emin, prec, emax. lia. Qed.

(** Rounding a positive mantissa of at least 53 bits, away from the
    subnormal numbers and from overflow. *)
Lemma binary_round_aux_spec (M : positive) (e : Z) (loc : location) :
  let n := Z.pos (digits2_pos M) - 53 in
  0 <= n -> -1074 <= e + n -> e + n + 1 <= 971 ->
  exists m1 : Z,
    Z.pos M / 2 ^ n <= m1 <= Z.pos M / 2 ^ n + 1
    /\ 2 ^ 52 <= m1 <= 2 ^ 53
    /\ (loc = loc_Exact -> 0 < n -> m1 <= Z.pos M / 2 ^ n + Z.b2z (Z.testbit (Z.pos M) (n - 1)))
    /\ (loc = loc_Exact -> n = 0 -> m1 = Z.pos M)
    /\ (m1 < 2 ^ 53 ->
        exists mp, m1 = Z.pos mp
          /\ binary_round_aux prec emax false (Z.pos M) e loc = S754_finite false mp (e + n))
    /\ (m1 = 2 ^ 53 ->
        binary_round_aux prec emax false (Z.pos M) e loc
        = S754_finite false 4503599627370496 (e + n + 1)).
Proof.
  intros n Hn Hlo Hhi.
  pose proof (size_bounds M) as [Slo Shi]. rewrite <- digits2_pos_size in Slo, Shi.
  assert (Hk : Z.pos (digits2_pos M) = n + 53) by (unfold n; lia).
  rewrite Hk in Slo, Shi.
  unfold binary_round_aux.
  assert (Hfirst : shr_fexp prec emax (Z.pos M) e loc
                   = shr (shr_record_of_loc (Z.pos M) loc) e n).
  { unfold shr_fexp. cbn [Zdigits2]. rewrite Hk, fexp_normal by lia. f_equal. lia. }
  rewrite Hfirst.
  destruct (shr_spec (shr_record_of_loc (Z.pos M) loc) e n) as (He' & Hm' & Hr' & H0');
    [rewrite shr_m_of_loc; lia|done|].
  destruct (shr (shr_record_of_loc (Z.pos M) loc) e n) as [mrs' e'] eqn:Hshr.
  cbn [fst snd] in He', Hm', Hr', H0'. rewrite shr_m_of_loc in Hm', Hr'. subst e'.
  pose proof (round_nearest_even_bounds mrs') as Hrne.
  set (m1 := round_nearest_even (shr_m mrs') (loc_of_shr_record mrs')) in *.
  rewrite Hm' in Hrne.
  assert (Hdiv : 2 ^ 52 <= Z.pos M / 2 ^ n < 2 ^ 53).
  { assert (0 < 2 ^ n) by (apply Z.pow_pos_nonneg; lia).
    replace (n + 53 - 1) with (52 + n) in Slo by lia.
    rewrite Z.pow_add_r in Slo, Shi by lia. split.
    - apply Z.div_le_lower_bound; lia.
    - apply Z.div_lt_upper_bound; lia. }
  assert (Hb : 0 <= Z.b2z (shr_r mrs') <= 1) by (destruct (shr_r mrs'); simpl; lia).
  exists m1. split; [lia|]. split; [lia|]. split; [|split; [|split]].
  - intros -> Hpos. rewrite <- Hr' by done. lia.
  - intros Hloc Hn0. subst loc. unfold m1. rewrite (H0' Hn0). done.
  - intros Hsmall. destruct m1 as [|mp|mp] eqn:Hm1; try lia. exists mp. split; [done|].
    assert (Hd : Z.pos (digits2_pos mp) = 53) by (apply digits_of_bounds; simpl; lia).
    unfold shr_fexp. cbn [Zdigits2]. rewrite Hd, fexp_normal by lia.
    replace (53 + (e + n) - 53 - (e + n)) with 0 by lia.
    cbn [shr shr_record_of_loc shr_m]. unfold prec, emax.
    by rewrite (proj2 (Z.leb_le _ _)) by lia.
  - intros Hbig. rewrite Hbig.
    change (2 ^ 53) with (Z.pos 9007199254740992).
    unfold shr_fexp. cbn [Zdigits2].
    replace (Z.pos (digits2_pos 9007199254740992)) with 54 by (vm_compute; reflexivity).
    rewrite fexp_normal by lia.
    replace (54 + (e + n) - 53 - (e + n)) with 1 by lia.
    cbn [shr shr_record_of_loc]. cbn. unfold prec, emax.
    by rewrite (proj2 (Z.leb_le _ _)) by lia.
Qed.

(** The binary64 of a positive integer below [2^53]: its 53-bit mantissa
    and its exponent. *)
Lemma float64_of_pos (z : Z) :
  0 < z < 2 ^ 53 ->
  exists (p m : positive),
    z = Z.pos p
    /\ Prim2SF (time.float64_of_int z) = S754_finite false m (Z.pos (Pos.size p) - 53)
    /\ Z.pos (digits2_pos m) = 53
    /\ Z.pos m = z * 2 ^ (53 - Z.pos (Pos.size p)).
Proof.
  intros Hz. destruct z as [|p|p]; try lia. 
  destruct (shl_align_small p) as (m & Hal & Hm & Hval); [lia|].
  pose proof (size_small p ltac:(lia)) as Hk.
  exists p, m. split; [done|]. split; [|done].
  unfold time.float64_of_int. rewrite (proj2 (Z.ltb_ge _ _)) by lia.
  rewrite of_uint63_spec, Uint63.of_Z_spec.
  rewrite Z.mod_small
    by (change Uint63.wB with 9223372036854775808;
        change (2 ^ 53) with 9007199254740992 in Hz; lia).
  cbn [binary_normalize]. unfold binary_round.
  rewrite digits2_pos_size, Z.add_0_r, fexp_normal by lia. rewrite Hal.
  apply binary_round_aux_exact; [done|lia].
Qed.

Lemma testbit_high (M n : Z) :
  0 <= M -> 1 <= n -> Z.testbit M (n - 1) = true -> 2 ^ (n - 1) <= M mod 2 ^ n.
Proof.
  intros HM Hn Hbit.
  assert (Hb : (M / 2 ^ (n - 1)) mod 2 = 1).
  { rewrite <- Z.testbit_spec' by lia. by rewrite Hbit. }
  replace n with ((n - 1) + 1) at 2 by lia.
  rewrite Z.pow_add_r, Z.pow_1_r by lia.
  assert (0 < 2 ^ (n - 1)) by (apply Z.pow_pos_nonneg; lia).
  rewrite Z.rem_mul_r by lia. rewrite Hb.
  pose proof (Z.mod_pos_bound M (2 ^ (n - 1))). lia.
Qed.

(** Rounding to nearest never exceeds the mantissa rounded half up. *)
Lemma round_below (M n m1 U : Z) :
  0 <= M -> 1 <= n ->
  m1 <= M / 2 ^ n + Z.b2z (Z.testbit M (n - 1)) ->
  M + 2 ^ (n - 1) < U * 2 ^ n ->
  m1 < U.
Proof.
  intros HM Hn Hm1 Hlt.
  assert (Hp : 0 < 2 ^ n) by (apply Z.pow_pos_nonneg; lia).
  assert (Hp1 : 0 < 2 ^ (n - 1)) by (apply Z.pow_pos_nonneg; lia).
  pose proof (Z.div_mod M (2 ^ n) ltac:(lia)) as Hdm.
  pose proof (Z.mod_pos_bound M (2 ^ n) Hp) as Hr.
  destruct (Z.testbit M (n - 1)) eqn:Hbit; simpl in Hm1.
  - pose proof (testbit_high M n HM Hn Hbit) as Hhigh.
    assert (2 ^ n = 2 * 2 ^ (n - 1)) as Htwo.
    { replace n with ((n - 1) + 1) at 1 by lia. rewrite Z.pow_add_r by lia. lia. }
    nia.
  - nia.
Qed.

Lemma below_one (mq eq t : Z) :
  0 <= t -> 0 <= - eq -> 2 ^ 52 <= mq ->
  mq * 2 ^ t * 2 ^ 30 < (2 ^ 30 - 1) * 2 ^ (- eq + t) ->
  mq * 2 ^ 30 < (2 ^ 30 - 1) * 2 ^ (- eq) /\ eq <= -53.
Proof.
  intros Ht He Hm Hv.
  assert (Hpt : 0 < 2 ^ t) by (apply Z.pow_pos_nonneg; lia).
  rewrite Z.pow_add_r in Hv by lia.
  assert (Hlt : mq * 2 ^ 30 < (2 ^ 30 - 1) * 2 ^ (- eq)) by nia.
  split; [done|].
  assert (Hpe : 0 < 2 ^ (- eq)) by (apply Z.pow_pos_nonneg; lia).
  assert (2 ^ 52 < 2 ^ (- eq)) as Hpow by (change (2 ^ 30) with 1073741824 in Hlt; nia).
  apply Z.pow_lt_mono_r_iff in Hpow; lia.
Qed.

Lemma size_le (p : positive) (k : Z) : 0 <= k -> Z.pos p < 2 ^ k -> Z.pos (Pos.size p) <= k.
Proof.
  intros Hk Hp. pose proof (size_bounds p) as [Hlo _].
  destruct (decide (Z.pos (Pos.size p) <= k)) as [|Hgt]; [done|]. exfalso.
  assert (2 ^ k <= 2 ^ (Z.pos (Pos.size p) - 1)) by (apply Z.pow_le_mono_r; lia). lia.
Qed.

(** The quotient of the nanoseconds by [1e9], as a binary64: a normal
    number below [1 - 2^-30]. *)
Lemma nanoseconds_over_second (nsec : Z) :
  0 < nsec < 1000000000 ->
  exists (mq : positive) (eq : Z),
    Prim2SF (PrimFloat.div (time.float64_of_int nsec) (time.float64_of_int 1000000000))
    = S754_finite false mq eq
    /\ 2 ^ 52 <= Z.pos mq < 2 ^ 53
    /\ -83 <= eq <= -53
    /\ Z.pos mq * 2 ^ 30 < (2 ^ 30 - 1) * 2 ^ (- eq).
Proof.
  intros Hn.
  destruct (float64_of_pos nsec) as (p & ma & -> & Ha & Hda & Hva);
    [change (2 ^ 53) with 9007199254740992; lia|].
  assert (Hb : Prim2SF (time.float64_of_int 1000000000)
               = S754_finite false 8388608000000000 (-23)) by (vm_compute; reflexivity).
  rewrite div_spec, Ha, Hb. unfold SF64div, SFdiv. cbn [xorb].
  set (ka := Z.pos (Pos.size p)) in *.
  assert (Hka : 1 <= ka <= 30).
  { split; [unfold ka; lia|]. apply size_le; [lia|].
    change (2 ^ 30) with 1073741824. lia. }
  pose proof (size_bounds ma) as [Mlo Mhi]. rewrite <- digits2_pos_size, Hda in Mlo, Mhi.
  change (2 ^ (53 - 1)) with 4503599627370496 in Mlo.
  change (2 ^ 53) with 9007199254740992 in Mhi.
  set (P := 2 ^ (53 - ka)) in *.
  assert (HP : 8388608 <= P).
  { unfold P. change 8388608 with (2 ^ 23). apply Z.pow_le_mono_r; lia. }
  (* the core of the division *)
  unfold SFdiv_core_binary. cbn [Zdigits2]. rewrite Hda.
  replace (Z.pos (digits2_pos 8388608000000000)) with 53 by (vm_compute; reflexivity).
  replace (53 + (ka - 53) - (53 + -23)) with (ka - 30) by lia.
  rewrite fexp_normal by lia.
  replace (ka - 53 - -23) with (ka - 30) by lia.
  rewrite Z.min_l by lia.
  replace (ka - 30 - (ka - 30 - 53)) with 53 by lia.
  rewrite Z.shiftl_mul_pow2 by lia.
  change (2 ^ 53) with 9007199254740992.
  pose proof (Z_div_mod (Z.pos ma * 9007199254740992) 8388608000000000 ltac:(lia)) as Hdm.
  destruct (Z.div_eucl (Z.pos ma * 9007199254740992) 8388608000000000) as [q0 r].
  destruct Hdm as [Hdm Hr].
  assert (Hq0 : 4503599627370496 <= q0 < 18014398509481984) by nia.
  destruct q0 as [|Q|Q]; try lia.
  (* the rounding *)
  assert (HdQ : 53 <= Z.pos (digits2_pos Q) <= 54).
  { rewrite digits2_pos_size. pose proof (size_bounds Q) as [Qlo Qhi]. split.
    - destruct (decide (53 <= Z.pos (Pos.size Q))) as [|Hlt]; [done|]. exfalso.
      assert (2 ^ Z.pos (Pos.size Q) <= 2 ^ 52) by (apply Z.pow_le_mono_r; lia).
      change (2 ^ 52) with 4503599627370496 in *. lia.
    - apply size_le; [lia|]. change (2 ^ 54) with 18014398509481984. lia. }
  destruct (binary_round_aux_spec Q (ka - 30 - 53)
              (new_location 8388608000000000 r))
    as (m1 & Hm1 & Hm1r & _ & _ & Hsmall & Hbig); [lia|lia|lia|].
  set (n := Z.pos (digits2_pos Q) - 53) in *.
  assert (Hn01 : 0 <= n <= 1) by (unfold n; lia).
  assert (Hpn : 1 <= 2 ^ n <= 2).
  { destruct (decide (n = 0)) as [->|]; [simpl; lia|].
    assert (n = 1) as -> by lia. simpl. lia. }
  assert (Hqn : Z.pos Q / 2 ^ n * 2 ^ n <= Z.pos Q).
  { rewrite Z.mul_comm. apply Z.mul_div_le. lia. }
  (* the value stays below 1 - 2^-30 *)
  assert (Hma : Z.pos ma <= 999999999 * P)
    by (rewrite Hva; apply Z.mul_le_mono_nonneg_r; lia).
  assert (Hval : (Z.pos Q + 2) * 1000000000 < (2 ^ 30 - 1) * P * 1000000000).
  { change (2 ^ 30 - 1) with 1073741823. nia. }
  assert (HE : 2 ^ (83 - ka) = P * 2 ^ 30).
  { unfold P. rewrite <- Z.pow_add_r by lia. f_equal. lia. }
  destruct (decide (m1 < 2 ^ 53)) as [Hlt|Hge].
  - destruct (Hsmall Hlt) as (mq & -> & ->).
    exists mq, (ka - 30 - 53 + n). split; [done|]. split; [lia|].
    assert (Hvq : Z.pos mq * 2 ^ n * 2 ^ 30 < (2 ^ 30 - 1) * (P * 2 ^ 30)).
    { change (2 ^ 30) with 1073741824 in *. nia. }
    rewrite <- HE in Hvq.
    replace (83 - ka) with (- (ka - 30 - 53 + n) + n) in Hvq by lia.
    apply below_one in Hvq; [|lia|lia|lia]. destruct Hvq as [Hv He]. split; [lia|done].
  - assert (m1 = 2 ^ 53) as Hm1eq by lia. rewrite (Hbig Hm1eq).
    exists 4503599627370496%positive, (ka - 30 - 53 + n + 1).
    split; [done|]. split; [by vm_compute|].
    assert (Hvq : 4503599627370496 * 2 ^ (n + 1) * 2 ^ 30 < (2 ^ 30 - 1) * (P * 2 ^ 30)).
    { rewrite Z.pow_add_r by lia. change (2 ^ 1) with 2.
      change (2 ^ 53) with 9007199254740992 in *.
      change (2 ^ 30) with 1073741824 in *. nia. }
    rewrite <- HE in Hvq.
    replace (83 - ka) with (- (ka - 30 - 53 + n + 1) + (n + 1)) in Hvq by lia.
    apply below_one in Hvq; [|lia|lia|by vm_compute]. destruct Hvq as [Hv He].
    split; [lia|done].
Qed.

(** The sum of whole seconds below [2^24] and a fraction below
    [1 - 2^-30] keeps the whole seconds as its integer part. *)
Lemma seconds_plus_fraction (sec : Z) (q : float) (mq : positive) (eq : Z) :
  0 <= sec < 2 ^ 24 ->
  Prim2SF q = S754_finite false mq eq ->
  2 ^ 52 <= Z.pos mq < 2 ^ 53 ->
  -83 <= eq <= -53 ->
  Z.pos mq * 2 ^ 30 < (2 ^ 30 - 1) * 2 ^ (- eq) ->
  conv.truncate (PrimFloat.add (time.float64_of_int sec) q) = Some sec.
Proof.
  intros Hsec Hq Hmq Heq Hval.
  assert (HE : 0 < 2 ^ (- eq)) by (apply Z.pow_pos_nonneg; lia).
  assert (HmqE : Z.pos mq < 2 ^ (- eq)) by (change (2 ^ 30) with 1073741824 in Hval; nia).
  unfold conv.truncate. rewrite add_spec, Hq.
  destruct (decide (sec = 0)) as [->|Hnz].
  - replace (Prim2SF (time.float64_of_int 0)) with (S754_zero false)
      by (vm_compute; reflexivity).
    cbn [SF64add SFadd]. rewrite (proj2 (Z.leb_gt _ _)) by lia.
    f_equal. apply Z.div_small. lia.
  - destruct (float64_of_pos sec) as (p & mx & -> & Hx & Hdx & Hvx);
      [change (2 ^ 53) with 9007199254740992; change (2 ^ 24) with 16777216 in Hsec; lia|].
    rewrite Hx. clear Hx.
    set (kx := Z.pos (Pos.size p)) in *.
    assert (Hkx : 1 <= kx <= 24) by (split; [unfold kx; lia|apply size_le; lia]).
    pose proof (size_bounds p) as [Slo Shi]. fold kx in Slo, Shi.
    set (n := kx - eq - 53).
    assert (Hn : 1 <= n) by (unfold n; lia).
    set (P := 2 ^ (53 - kx)) in *.
    assert (HP : 0 < P) by (apply Z.pow_pos_nonneg; lia).
    assert (HN : 0 < 2 ^ n) by (apply Z.pow_pos_nonneg; lia).
    assert (HPN : P * 2 ^ n = 2 ^ (- eq)).
    { unfold P. rewrite <- Z.pow_add_r by lia. f_equal. unfold n. lia. }
    (* the aligned sum *)
    unfold SF64add, SFadd. rewrite Z.min_r by lia.
    unfold shl_align at 2. rewrite Z.sub_diag. cbn [fst].
    unfold shl_align at 1.
    destruct (eq - (kx - 53)) as [|d|d] eqn:Hd; try lia.
    cbn [fst cond_Zopp]. 
    assert (Hshift : Z.pos (Pos.iter xO mx d) = Z.pos mx * 2 ^ n).
    { rewrite Zpos_shift. f_equal. f_equal. unfold n. lia. }
    change (Z.pos (Pos.iter xO mx d) + Z.pos mq) with (Z.pos (Pos.iter xO mx d + mq)).
    set (M := (Pos.iter xO mx d + mq)%positive).
    assert (HM : Z.pos M = Z.pos p * 2 ^ (- eq) + Z.pos mq).
    { unfold M. rewrite Pos2Z.inj_add, Hshift, Hvx, <- HPN. lia. }
    cbn [binary_normalize].
    assert (HdM : Z.pos (digits2_pos M) = kx - eq).
    { apply digits_of_bounds. rewrite HM.
      replace (kx - eq - 1) with ((kx - 1) + - eq) by lia.
      replace (kx - eq) with (kx + - eq) by lia.
      rewrite !Z.pow_add_r by lia. nia. }
    unfold binary_round. rewrite HdM.
    replace (kx - eq + eq) with kx by lia. rewrite fexp_normal by lia.
    unfold shl_align. destruct (kx - 53 - eq) as [|d'|d'] eqn:Hd'; try lia.
    (* the rounding *)
    destruct (binary_round_aux_spec M eq loc_Exact)
      as (m1 & Hm1 & Hm1r & Hexact & _ & Hsmall & _); [lia|lia|lia|].
    rewrite HdM in Hm1, Hexact, Hsmall. fold n in Hm1, Hexact, Hsmall.
    specialize (Hexact eq_refl ltac:(lia)).
    assert (Hlow : Z.pos p * P <= m1).
    { etransitivity; [|apply Hm1]. apply Z.div_le_lower_bound; [done|].
      rewrite HM, <- HPN. nia. }
    assert (Hup : m1 < (Z.pos p + 1) * P).
    { apply (round_below (Z.pos M) n); [lia|done|done|].
      rewrite HM.
      assert (2 ^ (n - 1) * 2 ^ 30 <= 2 ^ (- eq)).
      { rewrite <- Z.pow_add_r by lia. apply Z.pow_le_mono_r; unfold n; lia. }
      change (2 ^ 30) with 1073741824 in *. nia. }
    assert (HU : (Z.pos p + 1) * P <= 2 ^ 53).
    { replace 53 with (kx + (53 - kx)) by lia. rewrite Z.pow_add_r by lia. fold P. nia. }
    destruct Hsmall as (mp & -> & ->); [lia|].
    rewrite (proj2 (Z.leb_gt _ _)) by lia. f_equal.
    replace (- (eq + n)) with (53 - kx) by (unfold n; lia). fold P.
    symmetry. apply Z.div_unique with (Z.pos mp - Z.pos p * P); lia.
Qed.

(** For a duration from zero to below [2^24] seconds, the integer part of
    [Seconds] is the whole seconds of the duration. *)
Lemma Seconds_floor (d : Z) :
  0 <= d < 16777216 * time.Second ->
  conv.truncate (time.Seconds d) = Some (d / time.Second).
Proof.
  intros Hd. unfold time.Second in *.
  pose proof (Z.div_mod d 1000000000 ltac:(lia)) as Hdm.
  pose proof (Z.mod_pos_bound d 1000000000 ltac:(lia)) as Hr.
  assert (Hsec : 0 <= d / 1000000000 < 2 ^ 24).
  { change (2 ^ 24) with 16777216. split.
    - apply Z.div_pos; lia.
    - apply Z.div_lt_upper_bound; lia. }
  destruct (decide (d mod 1000000000 = 0)) as [Hz|Hnz].
  - rewrite Hdm at 1. rewrite Hz, Z.add_0_r, Z.mul_comm.
    apply Seconds_whole. change (2 ^ 24) with 16777216 in Hsec.
    change (2 ^ 53) with 9007199254740992. lia.
  - unfold time.Seconds, time.Second.
    rewrite Z.quot_div_nonneg, Z.rem_mod_nonneg by lia.
    destruct (nanoseconds_over_second (d mod 1000000000))
      as (mq & eq & Hq & Hmq & Heq & Hval); [lia|].
    by eapply seconds_plus_fraction.
Qed.

(** X12. A duration-based rate from zero to below [2^24] seconds, whole or
    not, is projected to its whole seconds, the remainder below a second
    dropped: up to there the sum [sec + nsec/1e9] that [Seconds] forms in
    binary64 never reaches the next whole number. *)
Theorem per_seconds_is_floor (otherwise : float -> Z)
        (p : market.ServiceProposal) :
  0 <= market.PerTime (market.GetRate (market.SP_PaymentMethod p)) < 16777216 * time.Second ->
  PerSeconds (Rate (PaymentMethod (proposalDTO_of otherwise p)))
  = market.PerTime (market.GetRate (market.SP_PaymentMethod p)) / time.Second.
Proof.
  intros Hd. unfold proposalDTO_of. cbn [PerSeconds Rate PaymentMethod].
  unfold conv.uint64_of_float64. rewrite Seconds_floor by done.
  assert (0 <= market.PerTime (market.GetRate (market.SP_PaymentMethod p)) / time.Second
          < 16777216).
  { unfold time.Second in *. split; [apply Z.div_pos; lia|apply Z.div_lt_upper_bound; lia]. }
  by rewrite (proj2 (Z.leb_le _ _)), (proj2 (Z.ltb_lt _ _)) by lia.
Qed.

End FractionalSeconds.

(** ** The plain list *)

Section PlainList.

Context {W : Type}.
Variable uint64_otherwise : float -> Z.
Variable pe : proposalsEndpoint W.

Implicit Types (s : @state W).

Local Abbreviation List := (List uint64_otherwise pe).
Local Abbreviation proposalDTO_of := (proposalDTO_of uint64_otherwise).
Local Abbreviation repository := (@proposal.Proposals W (proposalRepository pe)).

(** C9. For the request without parameters, when the repository call
    succeeds, the answer is the array of the projections of the
    repository's proposals, in the repository's order, each with the
    fields of its proposal and without metrics. In the payment method the
    type, the price and the byte rate are the proposal's; the seconds are
    the integer part of the binary64 seconds of the time rate, which is
    the rate's whole seconds for every rate below [2^24] seconds and for
    every rate of whole seconds. *)
Theorem no_parameters_plain_list s (ps : list market.ServiceProposal) (w : W) :
  repository (filter_of ∅) (world s) = ((ps, None), w) ->
  filter_of ∅
  = {| proposal.ProviderID := ""; proposal.ServiceType := "";
       proposal.AccessPolicyID := ""; proposal.AccessPolicySource := "";
       proposal.LowerGBPriceBound := None; proposal.UpperGBPriceBound := None;
       proposal.LowerTimePriceBound := None; proposal.UpperTimePriceBound := None;
       proposal.ExcludeUnsupported := true |}
  /\ exists (ds : list proposalDTO) s',
       List ∅ s = Some ({| status := StatusOK; payload := proposalsBody (json_array ds) |}, s')
       /\ ds = map proposalDTO_of ps
       /\ length ds = length ps
       /\ forall (i : nat) (p : market.ServiceProposal),
            ps !! i = Some p ->
            exists d, ds !! i = Some d
              /\ ID d = market.SP_ID p
              /\ ProviderID d = market.ProviderID p
              /\ ServiceType d = market.ServiceType p
              /\ (let l := LocationOriginate (ServiceDefinition d) in
                  let l' := market.GetLocation (market.SP_ServiceDefinition p) in
                  Continent l = market.Continent l' /\ Country l = market.Country l'
                  /\ City l = market.City l' /\ ASN l = market.ASN l'
                  /\ ISP l = market.ISP l' /\ NodeType l = market.NodeType l')
              /\ AccessPolicies d = market.AccessPolicies p
              /\ Type_ (PaymentMethod d) = market.GetType (market.SP_PaymentMethod p)
              /\ Price (PaymentMethod d) = market.GetPrice (market.SP_PaymentMethod p)
              /\ PerBytes (Rate (PaymentMethod d))
                 = market.PerByte (market.GetRate (market.SP_PaymentMethod p))
              /\ (let t := market.PerTime (market.GetRate (market.SP_PaymentMethod p)) in
                  (forall v, conv.truncate (time.Seconds t) = Some v -> 0 <= v < 2 ^ 64 ->
                             PerSeconds (Rate (PaymentMethod d)) = v)
                  /\ (0 <= t < 16777216 * time.Second ->
                      PerSeconds (Rate (PaymentMethod d)) = t / time.Second)
                  /\ (forall n, 0 <= n <= 9223372036 -> t = n * time.Second ->
                                PerSeconds (Rate (PaymentMethod d)) = n))
              /\ Metrics d = None.
Proof.
  intros Hrepo. split; [done|].
  eexists _, _. split; [by eapply List_plain|].
  split; [done|]. split; [by rewrite length_map|].
  intros i p Hp. exists (proposalDTO_of p).
  split; [by rewrite list_lookup_fmap, Hp|].
  do 8 (split; [done|]). split; [|done].
  assert (Hfits : forall v, conv.truncate (time.Seconds
                     (market.PerTime (market.GetRate (market.SP_PaymentMethod p)))) = Some v ->
                   0 <= v < 2 ^ 64 ->
                   PerSeconds (Rate (PaymentMethod (proposalDTO_of p))) = v).
  { intros v Hv Hrange. unfold endpoints.proposalDTO_of. cbn [PerSeconds Rate PaymentMethod].
    unfold conv.uint64_of_float64. rewrite Hv.
    by rewrite (proj2 (Z.leb_le _ _)), (proj2 (Z.ltb_lt _ _)) by lia. }
  cbv zeta. split; [exact Hfits|]. split.
  - intros Ht. apply Hfits; [by apply Seconds_floor|].
    unfold time.Second in *. split; [apply Z.div_pos; lia|].
    apply Z.div_lt_upper_bound; lia.
  - intros n Hn Ht. apply Hfits; [|lia]. rewrite Ht. apply Seconds_whole.
    change (2 ^ 53) with 9007199254740992. lia.
Qed.

End PlainList.

(** ** The further properties on concrete inputs *)

Lemma addProposalMetrics_frame_witness :
  world fixture.enriched = world fixture.loaded
  /\ calls fixture.enriched = calls fixture.loaded
  /\ length (heap fixture.enriched) = length (heap fixture.loaded)
  /\ forall (i : nat) d,
       heap fixture.loaded !! i = Some d ->
       exists d', heap fixture.enriched !! i = Some d'
         /\ ID d' = ID d
         /\ ProviderID d' = ProviderID d
         /\ ServiceType d' = ServiceType d
         /\ ServiceDefinition d' = ServiceDefinition d
         /\ AccessPolicies d' = AccessPolicies d
         /\ PaymentMethod d' = PaymentMethod d
         /\ (i ∉ elems (mk_slice [0%nat]) -> d' = d)
         /\ (metricsMap_of fixture.records !! index_key (dto_pair d) = None -> d' = d).
Proof.
  apply (addProposalMetrics_frame (mk_slice [0%nat]) fixture.records
           fixture.loaded fixture.enriched).
  vm_compute. reflexivity.
Defined.

Lemma addProposalMetrics_idempotent_witness :
  addProposalMetrics (mk_slice [0%nat]) fixture.records fixture.enriched
  = Some (tt, fixture.enriched).
Proof.
  apply (addProposalMetrics_idempotent (mk_slice [0%nat]) fixture.records
           fixture.loaded fixture.enriched).
  vm_compute. reflexivity.
Defined.


Lemma unmatched_record_is_ignored_witness :
  addProposalMetrics (mk_slice [0%nat; 1%nat])
    (fixture.records ++ sample.metric "0xP9" "wireguard" 3 :: []) fixture.loaded
  = addProposalMetrics (mk_slice [0%nat; 1%nat]) (fixture.records ++ []) fixture.loaded.
Proof.
  apply (unmatched_record_is_ignored (mk_slice [0%nat; 1%nat]) fixture.records []
           (sample.metric "0xP9" "wireguard" 3) fixture.loaded).
  intros q d Hq Hd. simpl in Hq.
  apply elem_of_cons in Hq as [->|Hq]; [injection Hd as <-; vm_compute; discriminate|].
  apply elem_of_cons in Hq as [->|Hq]; [injection Hd as <-; vm_compute; discriminate|].
  by apply elem_of_nil in Hq.
Defined.

Lemma filter_follows_parameters_witness :
  exists (resp : response) s' (new : list call) (f : proposal.Filter),
    List sample.otherwise (sample.endpoint [] None []) fixture.bounded sample.start
    = Some (resp, s')
    /\ calls s' = calls sample.start ++ new
    /\ repository_calls new = [f]
    /\ proposal.ProviderID f = url.Get fixture.bounded "provider_id"
    /\ proposal.ServiceType f = url.Get fixture.bounded "service_type"
    /\ proposal.AccessPolicyID f = url.Get fixture.bounded "access_policy_id"
    /\ proposal.AccessPolicySource f = url.Get fixture.bounded "access_policy_source"
    /\ bound_of_text (url.Get fixture.bounded "upper_time_price_bound")
       = (proposal.UpperTimePriceBound f, None)
    /\ bound_of_text (url.Get fixture.bounded "lower_time_price_bound")
       = (proposal.LowerTimePriceBound f, None)
    /\ bound_of_text (url.Get fixture.bounded "upper_gb_price_bound")
       = (proposal.UpperGBPriceBound f, None)
    /\ bound_of_text (url.Get fixture.bounded "lower_gb_price_bound")
       = (proposal.LowerGBPriceBound f, None).
Proof.
  apply (filter_follows_parameters sample.otherwise (sample.endpoint [] None [])
           fixture.bounded sample.start).
  vm_compute. reflexivity.
Defined.

Lemma flag_changes_metrics_only_witness :
  exists (resp resp' : response) s1 s2,
    List sample.otherwise
         (sample.endpoint [sample.offer 1 "0xP1" "openvpn" time.Minute] None fixture.records)
         ∅ sample.start = Some (resp, s1)
    /\ List sample.otherwise
           (sample.endpoint [sample.offer 1 "0xP1" "openvpn" time.Minute] None fixture.records)
           sample.with_counts sample.start = Some (resp', s2)
    /\ same_but_metrics resp resp'
    /\ repository_calls (calls s1) = repository_calls (calls s2).
Proof.
  apply (flag_changes_metrics_only sample.otherwise
           (sample.endpoint [sample.offer 1 "0xP1" "openvpn" time.Minute] None fixture.records)
           ∅ sample.with_counts sample.start).
  intros key Hkey. unfold url.Get, sample.with_counts.
  by rewrite lookup_singleton_ne, lookup_empty.
Defined.

Lemma equal_keys_equal_metrics_witness :
  Metrics (enrich (metricsMap_of fixture.records) fixture.first)
  = Metrics (enrich (metricsMap_of fixture.records)
               (proposalDTO_of sample.otherwise (sample.offer 3 "0xP1" "openvpn" time.Second))).
Proof.
  apply (equal_keys_equal_metrics sample.otherwise
           (sample.endpoint [sample.offer 1 "0xP1" "openvpn" time.Minute;
                             sample.offer 3 "0xP1" "openvpn" time.Second] None fixture.records)
           sample.with_counts sample.start
           {| status := StatusOK;
              payload := proposalsBody (json_array
                [enrich (metricsMap_of fixture.records) fixture.first;
                 enrich (metricsMap_of fixture.records)
                   (proposalDTO_of sample.otherwise
                      (sample.offer 3 "0xP1" "openvpn" time.Second))]) |}
           {| world := tt;
              calls := [callProposals (filter_of sample.with_counts); callProposalsMetrics];
              heap := [enrich (metricsMap_of fixture.records) fixture.first;
                       enrich (metricsMap_of fixture.records)
                         (proposalDTO_of sample.otherwise
                            (sample.offer 3 "0xP1" "openvpn" time.Second))] |}
           [enrich (metricsMap_of fixture.records) fixture.first;
            enrich (metricsMap_of fixture.records)
              (proposalDTO_of sample.otherwise (sample.offer 3 "0xP1" "openvpn" time.Second))]).
  - vm_compute. reflexivity.
  - reflexivity.
  - left.
  - right. left.
  - reflexivity.
Defined.

Lemma whole_seconds_are_exact_witness :
  PerSeconds (Rate (PaymentMethod
    (proposalDTO_of sample.otherwise (sample.offer 1 "0xP1" "openvpn" time.Minute)))) = 60.
Proof.
  apply (whole_seconds_are_exact sample.otherwise
           (sample.offer 1 "0xP1" "openvpn" time.Minute) 60).
  - lia.
  - reflexivity.
Defined.

Lemma per_seconds_is_floor_witness :
  PerSeconds (Rate (PaymentMethod
    (proposalDTO_of sample.otherwise
       (sample.offer 1 "0xP1" "openvpn" 16777215999999999))))
  = 16777215.
Proof.
  apply (per_seconds_is_floor sample.otherwise
           (sample.offer 1 "0xP1" "openvpn" 16777215999999999)).
  cbn [market.PerTime market.GetRate market.SP_PaymentMethod sample.offer].
  unfold time.Second. lia.
Defined.

Lemma no_parameters_plain_list_witness :
  let ps := [sample.offer 1 "0xP1" "openvpn" time.Minute;
             sample.offer 2 "0xP2" "wireguard" 1500000000] in
  exists (ds : list proposalDTO) s',
    List sample.otherwise (sample.endpoint ps None [sample.metric "0xP1" "openvpn" 5])
         ∅ sample.start
    = Some ({| status := StatusOK; payload := proposalsBody (json_array ds) |}, s')
    /\ length ds = 2%nat
    /\ (exists d, ds !! 0%nat = Some d
          /\ ID d = 1 /\ ProviderID d = "0xP1" /\ ServiceType d = "openvpn"
          /\ PerSeconds (Rate (PaymentMethod d)) = 60
          /\ PerBytes (Rate (PaymentMethod d)) = 7
          /\ Metrics d = None)
    /\ (exists d, ds !! 1%nat = Some d
          /\ ID d = 2 /\ ProviderID d = "0xP2" /\ ServiceType d = "wireguard"
          /\ PerSeconds (Rate (PaymentMethod d)) = 1
          /\ PerBytes (Rate (PaymentMethod d)) = 7
          /\ Metrics d = None).
Proof.
  intros ps.
  destruct (no_parameters_plain_list sample.otherwise
              (sample.endpoint ps None [sample.metric "0xP1" "openvpn" 5])
              sample.start ps tt eq_refl)
    as (_ & ds & s' & Hrun & _ & Hlen & Hall).
  exists ds, s'. split; [exact Hrun|]. split; [exact Hlen|]. split.
  - destruct (Hall 0%nat _ eq_refl)
      as (d & Hd & Hid & Hprov & Hserv & _ & _ & _ & _ & Hbytes & (_ & _ & Hwhole) & Hnone).
    exists d. split; [exact Hd|]. split; [exact Hid|]. split; [exact Hprov|].
    split; [exact Hserv|]. split; [|split; [exact Hbytes|exact Hnone]].
    apply Hwhole; [lia|reflexivity].
  - destruct (Hall 1%nat _ eq_refl)
      as (d & Hd & Hid & Hprov & Hserv & _ & _ & _ & _ & Hbytes & (_ & Hfloor & _) & Hnone).
    exists d. split; [exact Hd|]. split; [exact Hid|]. split; [exact Hprov|].
    split; [exact Hserv|]. split; [|split; [exact Hbytes|exact Hnone]].
    apply Hfloor. cbn. unfold time.Second. lia.
Defined.
